(** * Validation of submission and evidence files (validation.py)

    A shallow embedding of the [Validation] class: the engine object with its
    four attributes, the two external collaborators (the pandas table reader
    and the iteration order of Python sets), the seven private checks and
    [__call__], followed by the properties of the checks. *)

From Stdlib Require Import Ascii String.
From Stdlib Require Import Floats.SpecFloat.
From stdpp Require Import base decidable option list sets gmap strings pretty.

Local Open Scope string_scope.

(** ** Values *)

(** [np.float32] cells: an IEEE 754 value, either a zero, an infinity, a NaN
    or a finite non-zero number (sign, mantissa, exponent). *)
Definition float32 : Type := spec_float.

(** [np.isfinite]: neither an infinity nor a NaN. *)
Definition isfinite (x : float32) : bool :=
  match x with
  | S754_zero _ | S754_finite _ _ _ => true
  | S754_infinity _ | S754_nan => false
  end.

(** The literal [0.] of [timestamps < 0.]. *)
Definition zero : float32 := S754_zero false.

(** Identifier triple of a shot and identifier pair of a video, as the tuples
    [(c, v, s)] and [(c, v)] the code builds. *)
Definition Shot : Type := string * string * string.
Definition Video : Type := string * string.

(** ** Tables

    One record per row of the four whitespace-delimited files, with the column
    names handed to [pd.read_table]; a table is the list of its rows in file
    order. *)

Record ShotRow := {
  shot_corpus_id : string;
  shot_video_id : string;
  shot_shot_id : string;
  shot_start_time : float32;
  shot_end_time : float32
}.

Record VideoRow := {
  video_corpus_id : string;
  video_video_id : string
}.

Record SubmissionRow := {
  sub_corpus_id : string;
  sub_video_id : string;
  sub_shot_id : string;
  sub_person_name : string;
  sub_confidence : float32
}.

Record EvidenceRow := {
  ev_person_name : string;
  ev_corpus_id : string;
  ev_video_id : string;
  ev_modality : string;
  ev_timestamp : float32
}.

Definition Submission : Type := list SubmissionRow.
Definition Evidence : Type := list EvidenceRow.

(** ** Exceptions *)

(** The ten [ValueError]s the checks raise, each with the arguments its
    [MESSAGE] is formatted with. *)
Inductive Reason :=
| InvalidPersonName (person_name : string)
| InvalidShot (corpus_id video_id shot_id : string)
| IncorrectConfidence (line : nat)
| InvalidVideo (corpus_id video_id : string)
| DuplicatePersonName (person_name : string)
| ExtraPersonName (person_name : string)
| MissingPersonName (person_name : string)
| IncorrectModality (modality : string)
| IncorrectTimestamp (line : nat)
| NegativeTimestamp (line : nat).

(** [MESSAGE.format(...)] of each error. *)
Definition MESSAGE (r : Reason) : string :=
  match r with
  | InvalidPersonName n => "Invalid person name (" +:+ n +:+ ")"
  | InvalidShot c v s => "Invalid shot (" +:+ c +:+ " " +:+ v +:+ " " +:+ s +:+ ")"
  | IncorrectConfidence line =>
      "Incorrect confidence in submission at line " +:+ pretty line
  | InvalidVideo c v => "Invalid video (" +:+ c +:+ " " +:+ v +:+ ") in evidence."
  | DuplicatePersonName n => "Duplicate person name in evidence (" +:+ n +:+ ")"
  | ExtraPersonName n => "Extra person name in evidence (" +:+ n +:+ ")"
  | MissingPersonName n => "Missing person name in evidence (" +:+ n +:+ ")"
  | IncorrectModality m => "Incorrect modality in evidence (" +:+ m +:+ ")"
  | IncorrectTimestamp line => "Incorrect timestamp in evidence at line " +:+ pretty line
  | NegativeTimestamp line => "Negative timestamp in evidence at line " +:+ pretty line
  end.

Inductive Exception :=
| ValueError (reason : Reason)
    (** the [ValueError] a check raises, with the arguments of its message *)
| AttributeError (attribute : string)
    (** reading [self.shots_] or [self.videos_] when [__init__] never set it *)
| KeyError (what : string)
    (** [pop] from an empty set *)
| ReaderError (what : string)
    (** the exception [pd.read_table] raised on a file it could not parse,
        whatever its class, re-raised as it is; pandas' own parse errors are
        [ValueError]s in Python (hence [except ValueError] around both
        loads), and they are filed here, not under [ValueError] above *)
| TypeError (what : string).
    (** [set(person_name)] on a cell that holds a float *)

(** What a method hands back: the checks end in [return True], except
    [__evidence_modalities], which falls off its end. *)
Inductive PyRet := PyTrue | PyNone.

(** ** The engine object *)

(** The attributes of a [Validation] instance.  [shots] and [videos] hold the
    constructor's arguments (a path, or Python's [None]); [shots_] and
    [videos_] exist only once [__init__] has assigned them. *)
Record Validation := {
  shots : option string;
  shots_ : option (gset Shot);
  videos : option string;
  videos_ : option (gset Video)
}.

(** Truth value of an optional path, as tested by [if self.shots:] and
    [if fp_evidence:]: [None] and the empty string are false. *)
Definition truthy (path : option string) : bool :=
  match path with
  | Some p => negb (String.eqb p "")
  | None => false
  end.

(** ** External collaborators *)

(** [pd.read_table(path, delim_whitespace=True, header=None, names=..., dtype=...)]
    for each of the four column schemas: the typed rows of the file, or a
    description of the exception the reader raised.

    The rows are those of a table in which every [str] cell holds the text of
    its field.  That is not every table pandas yields: with its default
    settings the reader stores the float NaN, not text, for a field such as
    [null], [nan] or [NA], [dtype=str] notwithstanding.  What the alphabet
    check does on a person-name column with such cells is modelled apart, by
    [__submission_person_names_cells] below. *)
Class Pandas := {
  read_shots : string → string + list ShotRow;
  read_videos : string → string + list VideoRow;
  read_submission : string → string + Submission;
  read_evidence : string → string + Evidence
}.

(** The order in which a Python set hands out its elements, to a [for] loop
    and to [pop]: each element once, in an order the program does not
    control.  Nothing below depends on which order it is. *)
Class HashOrder := {
  hash_iter : ∀ `{Countable A}, gset A → list A;
  hash_iter_perm : ∀ `{Countable A} (X : gset A), hash_iter X ≡ₚ elements X
}.

(** ** Methods run against [self] and may raise *)

Definition Py (A : Type) : Type := Validation → Validation * (Exception + A).

Definition ret {A} (a : A) : Py A := λ self, (self, inr a).

Definition raise {A} (e : Exception) : Py A := λ self, (self, inl e).

Definition bind {A B} (m : Py A) (k : A → Py B) : Py B :=
  λ self,
    match m self with
    | (self', inr a) => k a self'
    | (self', inl e) => (self', inl e)
    end.

Notation "x <- m ;; k" := (bind m (λ x, k))
  (at level 100, m at next level, right associativity, only parsing).
Notation "m ;;; k" := (bind m (λ _, k))
  (at level 100, right associativity, only parsing).

(** Read an attribute that is always there. *)
Definition attr {A} (field : Validation → A) : Py A :=
  λ self, (self, inr (field self)).

(** Read an attribute that [__init__] sets conditionally. *)
Definition attr_opt {A} (name : string) (field : Validation → option A) : Py A :=
  λ self,
    match field self with
    | Some a => (self, inr a)
    | None => (self, inl (AttributeError name))
    end.

(** Assignment [self.x = ...]. *)
Definition setattr (update : Validation → Validation) : Py unit :=
  λ self, (update self, inr tt).

(** Result of a call to the table reader; its exception goes up unchanged
    ([except Exception as e: raise e]). *)
Definition lift {A} (r : string + A) : Py A :=
  λ self,
    match r with
    | inr a => (self, inr a)
    | inl what => (self, inl (ReaderError what))
    end.

(** [if path: body(path)] on an optional path. *)
Definition when_truthy (path : option string) (body : string → Py unit) : Py unit :=
  match path with
  | Some p => if truthy (Some p) then body p else ret tt
  | None => ret tt
  end.

(** [for x in xs: body(x)]. *)
Fixpoint for_each {A} (xs : list A) (body : A → Py unit) : Py unit :=
  match xs with
  | [] => ret tt
  | x :: xs' => body x ;;; for_each xs' body
  end.

(** Outcome of running a method on an engine, and the engine afterwards. *)
Definition outcome {A} (m : Py A) (self : Validation) : Exception + A := (m self).2.
Definition after {A} (m : Py A) (self : Validation) : Validation := (m self).1.

(** ** pandas and numpy helpers *)

(** [np.where(mask)[0]]: the positions at which [mask] holds, ascending. *)
Fixpoint np_where_from (i : nat) (mask : list bool) : list nat :=
  match mask with
  | [] => []
  | b :: mask' =>
      if b then i :: np_where_from (S i) mask' else np_where_from (S i) mask'
  end.

Definition np_where (mask : list bool) : list nat := np_where_from 0 mask.

(** [Series.duplicated()] with the default [keep='first']: a row is marked
    when its key already occurred in an earlier row. *)
Fixpoint duplicated_from (seen : list string) (keys : list string) : list bool :=
  match keys with
  | [] => []
  | k :: keys' => bool_decide (k ∈ seen) :: duplicated_from (k :: seen) keys'
  end.

Definition duplicated (keys : list string) : list bool := duplicated_from [] keys.

(** Boolean indexing [frame[mask]]. *)
Fixpoint mask_select {A} (mask : list bool) (rows : list A) : list A :=
  match mask, rows with
  | b :: mask', r :: rows' =>
      if b then r :: mask_select mask' rows' else mask_select mask' rows'
  | _, _ => []
  end.

(** [Series.unique()]: the values in order of first appearance. *)
Definition unique (keys : list string) : list string :=
  mask_select (negb <$> duplicated keys) keys.

(** [any(xs)]. *)
Definition any (xs : list bool) : bool := existsb id xs.

(** [set(s)] of a string: its characters. *)
Definition chars (s : string) : gset ascii := list_to_set (list_ascii_of_string s).

Section Validation.
Context `{Pandas} `{HashOrder}.

(** [X.pop()]: removes and hands back the element the set yields first; the
    second component is what is left of [X]. *)
Definition pop `{Countable A} (X : gset A) : option (A * gset A) :=
  match hash_iter X with
  | x :: _ => Some (x, X ∖ {[ x ]})
  | [] => None
  end.

Definition pop_or_raise `{Countable A} (X : gset A) : Py (A * gset A) :=
  match pop X with
  | Some r => ret r
  | None => raise (KeyError "pop from an empty set")
  end.

Definition _load_shots (path : string) : Py (gset Shot) :=
  shots <- lift (read_shots path) ;;
  ret (list_to_set
         ((λ r, (shot_corpus_id r, shot_video_id r, shot_shot_id r)) <$> shots)).

Definition _load_videos (path : string) : Py (gset Video) :=
  videos <- lift (read_videos path) ;;
  ret (list_to_set ((λ r, (video_corpus_id r, video_video_id r)) <$> videos)).

Definition __init__ (shots0 videos0 : option string) : Py unit :=
  setattr (λ self, {| shots := shots0; shots_ := shots_ self;
                      videos := videos self; videos_ := videos_ self |}) ;;;
  self_shots <- attr shots ;;
  when_truthy self_shots (λ path,
    loaded <- _load_shots path ;;
    setattr (λ self, {| shots := shots self; shots_ := Some loaded;
                        videos := videos self; videos_ := videos_ self |})) ;;;
  setattr (λ self, {| shots := shots self; shots_ := shots_ self;
                      videos := videos0; videos_ := videos_ self |}) ;;;
  self_videos <- attr videos ;;
  when_truthy self_videos (λ path,
    loaded <- _load_videos path ;;
    setattr (λ self, {| shots := shots self; shots_ := shots_ self;
                        videos := videos self; videos_ := Some loaded |})).

(** The object [__init__] starts from: no attribute assigned yet. *)
Definition blank : Validation :=
  {| shots := None; shots_ := None; videos := None; videos_ := None |}.

(** [Validation(shots, videos)]: the engine, unless a reference file could
    not be read. *)
Definition new (shots0 videos0 : option string) : Exception + Validation :=
  match __init__ shots0 videos0 blank with
  | (self, inr _) => inr self
  | (_, inl e) => inl e
  end.

Definition _load_submission (fp : string) : Py Submission :=
  lift (read_submission fp).

Definition _load_evidence (fp : string) : Py Evidence :=
  lift (read_evidence fp).

Definition ascii_lowercase : string := "abcdefghijklmnopqrstuvwxyz".

Definition ALLOWED_CHARACTERS : gset ascii := chars (ascii_lowercase +:+ "_").

Definition __submission_person_names (submission : Submission) : Py PyRet :=
  let person_names : gset string :=
    list_to_set (unique (sub_person_name <$> submission)) in
  for_each (hash_iter person_names) (λ person_name,
    if negb (bool_decide (chars person_name ⊆ ALLOWED_CHARACTERS))
    then raise (ValueError (InvalidPersonName person_name))
    else ret tt) ;;;
  ret PyTrue.

Definition __submission_shots (submission : Submission) : Py PyRet :=
  let shots : gset Shot :=
    list_to_set
      ((λ r, (sub_corpus_id r, sub_video_id r, sub_shot_id r)) <$> submission) in
  self_shots_ <- attr_opt "shots_" shots_ ;;
  let invalid_shots := shots ∖ self_shots_ in
  if bool_decide (invalid_shots ≠ ∅) then
    popped <- pop_or_raise invalid_shots ;;
    let '(c, v, s, _) := popped in
    raise (ValueError (InvalidShot c v s))
  else ret PyTrue.

Definition __submission_confidence (submission : Submission) : Py PyRet :=
  let confidence := sub_confidence <$> submission in
  let not_finite := np_where ((λ x, negb (isfinite x)) <$> confidence) in
  (* if len(not_finite): raise ... line=not_finite[0]+1 *)
  match not_finite with
  | first :: _ => raise (ValueError (IncorrectConfidence (first + 1)))
  | [] => ret PyTrue
  end.

Definition __evidence_videos (evidence : Evidence) : Py PyRet :=
  let videos : gset Video :=
    list_to_set ((λ r, (ev_corpus_id r, ev_video_id r)) <$> evidence) in
  self_videos_ <- attr_opt "videos_" videos_ ;;
  let invalid_videos := videos ∖ self_videos_ in
  if bool_decide (invalid_videos ≠ ∅) then
    popped <- pop_or_raise invalid_videos ;;
    let '(c, v, _) := popped in
    raise (ValueError (InvalidVideo c v))
  else ret PyTrue.

Definition __evidence_person_names (submission : Submission) (evidence : Evidence)
  : Py PyRet :=
  let duplicated := duplicated (ev_person_name <$> evidence) in
  if any duplicated then
    popped <-
      pop_or_raise
        (list_to_set (ev_person_name <$> mask_select duplicated evidence)) ;;
    let '(person_name, _) := popped in
    raise (ValueError (DuplicatePersonName person_name))
  else
    let submission_person_names : gset string :=
      list_to_set (unique (sub_person_name <$> submission)) in
    let evidence_person_names : gset string :=
      list_to_set (unique (ev_person_name <$> evidence)) in
    let extra := evidence_person_names ∖ submission_person_names in
    if bool_decide (extra ≠ ∅) then
      popped <- pop_or_raise extra ;;
      let '(person_name, _) := popped in
      raise (ValueError (ExtraPersonName person_name))
    else
      let missing := submission_person_names ∖ evidence_person_names in
      if bool_decide (missing ≠ ∅) then
        popped <- pop_or_raise missing ;;
        let '(person_name, _) := popped in
        raise (ValueError (MissingPersonName person_name))
      else ret PyTrue.

Definition MODALITIES : gset string := {[ "written"; "pronounced" ]}.

Definition __evidence_modalities (evidence : Evidence) : Py PyRet :=
  let modalities : gset string := list_to_set (unique (ev_modality <$> evidence)) in
  if negb (bool_decide (modalities ⊆ MODALITIES)) then
    popped <- pop_or_raise (modalities ∖ MODALITIES) ;;
    let '(modality, _) := popped in
    raise (ValueError (IncorrectModality modality))
  else ret PyNone.

Definition __evidence_timestamps (evidence : Evidence) : Py PyRet :=
  let timestamps := ev_timestamp <$> evidence in
  let not_finite := np_where ((λ x, negb (isfinite x)) <$> timestamps) in
  match not_finite with
  | first :: _ => raise (ValueError (IncorrectTimestamp (first + 1)))
  | [] =>
      let negative := np_where ((λ x, SFltb x zero) <$> timestamps) in
      match negative with
      | first :: _ => raise (ValueError (NegativeTimestamp (first + 1)))
      | [] => ret PyTrue
      end
  end.

Definition __call__ (fp_submission : string) (fp_evidence : option string)
  : Py PyRet :=
  submission <- _load_submission fp_submission ;;
  (* validate person names *)
  __submission_person_names submission ;;;
  (* validate shots *)
  self_shots <- attr shots ;;
  (if truthy self_shots then __submission_shots submission else ret PyNone) ;;;
  (* validate confidence *)
  __submission_confidence submission ;;;
  when_truthy fp_evidence (λ fp,
    evidence <- _load_evidence fp ;;
    (* validate videos *)
    self_videos <- attr videos ;;
    (if truthy self_videos then __evidence_videos evidence else ret PyNone) ;;;
    (* validate timestamps *)
    __evidence_timestamps evidence ;;;
    (* validate evidence person names *)
    __evidence_person_names submission evidence ;;;
    (* validate evidence modality *)
    __evidence_modalities evidence ;;;
    ret tt) ;;;
  ret PyTrue.

(** A sequence of calls on one engine: each call runs on the engine the
    previous one left behind, whether it returned or raised. *)
Fixpoint calls (inputs : list (string * option string)) (self : Validation)
  : Validation * list (Exception + PyRet) :=
  match inputs with
  | [] => (self, [])
  | (fp_submission, fp_evidence) :: inputs' =>
      let '(self', r) := __call__ fp_submission fp_evidence self in
      let '(self'', rs) := calls inputs' self' in
      (self'', r :: rs)
  end.

End Validation.

(** ** The person-name column as pandas fills it *)

(** A cell of a [dtype=str] column: the text of its field, or the float NaN
    that [pd.read_table] stores for a field it takes for a missing value
    ([null], [nan], [NA], ...).  The rows of [Pandas] are those of the
    tables without NaN cells. *)
Inductive Cell := Str (text : string) | NaN.

#[global] Instance Cell_eq_dec : EqDecision Cell.
Proof. solve_decision. Defined.

#[global] Instance Cell_countable : Countable Cell.
Proof.
  refine (inj_countable'
            (λ c, match c with Str text => Some text | NaN => None end)
            (λ o, match o with Some text => Str text | None => NaN end) _).
  by intros [].
Defined.

(** [Series.unique()] on a column of cells: the values in order of first
    appearance, NaN counting as one value. *)
Fixpoint unique_cells_from (seen : list Cell) (cells : list Cell) : list Cell :=
  match cells with
  | [] => []
  | c :: cells' =>
      if bool_decide (c ∈ seen) then unique_cells_from seen cells'
      else c :: unique_cells_from (c :: seen) cells'
  end.

Definition unique_cells (cells : list Cell) : list Cell :=
  unique_cells_from [] cells.

(** [__submission_person_names] on [submission['person_name']] with the cells
    pandas put there: [set(person_name)] is the set of characters of a text
    cell, and raises on NaN, a float not being iterable. *)
Definition __submission_person_names_cells `{HashOrder} (person_name : list Cell)
  : Py PyRet :=
  let person_names : gset Cell := list_to_set (unique_cells person_name) in
  for_each (hash_iter person_names) (λ person_name,
    match person_name with
    | NaN => raise (TypeError "'float' object is not iterable")
    | Str text =>
        if negb (bool_decide (chars text ⊆ ALLOWED_CHARACTERS))
        then raise (ValueError (InvalidPersonName text))
        else ret tt
    end) ;;;
  ret PyTrue.

(** ** Vocabulary of the specification *)

(** A method passes when it returns, fails when it raises. *)
Definition passes {A} (m : Py A) (self : Validation) : Prop :=
  ∃ v, outcome m self = inr v.
Definition fails {A} (m : Py A) (self : Validation) : Prop :=
  ∃ e, outcome m self = inl e.

(** Row [i] (counted from 0) is the first row in file order with property [P]. *)
Definition first_row {A} (P : A → Prop) (rows : list A) (i : nat) : Prop :=
  (∃ x, rows !! i = Some x ∧ P x) ∧
  ∀ j x, j < i → rows !! j = Some x → ¬ P x.

(** NaN or an infinity. *)
Definition non_finite (x : float32) : Prop :=
  x = S754_nan ∨ ∃ s, x = S754_infinity s.

(** [x < 0] and [0 <= x] as IEEE comparisons. *)
Definition negative (x : float32) : Prop := SFltb x zero = true.
Definition non_negative (x : float32) : Prop := SFleb zero x = true.

(** A lowercase ASCII letter or the underscore. *)
Definition lowercase_or_underscore (c : ascii) : Prop :=
  (nat_of_ascii "a" ≤ nat_of_ascii c ∧ nat_of_ascii c ≤ nat_of_ascii "z")%nat
  ∨ c = "_"%char.

(** Every character of the name is in the alphabet. *)
Definition in_alphabet (name : string) : Prop :=
  ∀ c, c ∈ list_ascii_of_string name → lowercase_or_underscore c.

(** The same test on code points, as a boolean. *)
Definition allowedb (c : ascii) : bool :=
  (Nat.leb 97 (nat_of_ascii c) && Nat.leb (nat_of_ascii c) 122)
  || Nat.eqb (nat_of_ascii c) 95.

(** The key occurs in two different rows. *)
Definition occurs_twice (k : string) (keys : list string) : Prop :=
  ∃ i j, i < j ∧ keys !! i = Some k ∧ keys !! j = Some k.

(** The triples and pairs a dataset refers to. *)
Definition shot_of (r : SubmissionRow) : Shot :=
  (sub_corpus_id r, sub_video_id r, sub_shot_id r).
Definition video_of (r : EvidenceRow) : Video :=
  (ev_corpus_id r, ev_video_id r).

(** A method that leaves every attribute of [self] as it found it. *)
Definition read_only {A} (m : Py A) : Prop := ∀ self, after m self = self.

(** The evidence dataset a call works on: none when [fp_evidence] is false,
    otherwise the rows the reader finds under that path. *)
Definition loads_evidence `{Pandas} (fp_evidence : option string)
  (evidence : option Evidence) : Prop :=
  match evidence with
  | Some rows =>
      ∃ fp, fp_evidence = Some fp ∧ truthy fp_evidence = true ∧
            read_evidence fp = inr rows
  | None => truthy fp_evidence = false
  end.

(** The checks that apply to a call, in the order of sections 4.3 and 4.4 of
    the specification. *)
Definition applicable_checks `{HashOrder} (self : Validation)
  (submission : Submission) (evidence : option Evidence) : list (Py PyRet) :=
  [__submission_person_names submission]
  ++ (if truthy (shots self) then [__submission_shots submission] else [])
  ++ [__submission_confidence submission]
  ++ match evidence with
     | Some rows =>
         (if truthy (videos self) then [__evidence_videos rows] else [])
         ++ [__evidence_timestamps rows;
             __evidence_person_names submission rows;
             __evidence_modalities rows]
     | None => []
     end.

(** Strict fail-fast over the results of a list of checks: the error of the
    first check that raised, and [True] when none did. *)
Fixpoint first_failure (results : list (Exception + PyRet)) : Exception + PyRet :=
  match results with
  | [] => inr PyTrue
  | inl e :: _ => inl e
  | inr _ :: results' => first_failure results'
  end.

(** The rules the engine enforces on a submission: names in the alphabet,
    shots in the Reference Shot Set when the engine has a shot list,
    confidences finite. *)
Definition valid_submission (self : Validation) (submission : Submission) : Prop :=
  (∀ r, r ∈ submission → in_alphabet (sub_person_name r))
  ∧ (truthy (shots self) = true →
       ∃ reference, shots_ self = Some reference ∧
         ∀ r, r ∈ submission → shot_of r ∈ reference)
  ∧ (∀ r, r ∈ submission → ¬ non_finite (sub_confidence r)).

(** The rules the engine enforces on evidence paired with a submission:
    videos in the Reference Video Set when the engine has a video list,
    timestamps finite and at least zero, one row per name, the names of the
    submission and no others, modalities among the two literals. *)
Definition valid_evidence (self : Validation) (submission : Submission)
  (evidence : Evidence) : Prop :=
  (truthy (videos self) = true →
     ∃ reference, videos_ self = Some reference ∧
       ∀ r, r ∈ evidence → video_of r ∈ reference)
  ∧ (∀ r, r ∈ evidence →
       ¬ non_finite (ev_timestamp r) ∧ non_negative (ev_timestamp r))
  ∧ NoDup (ev_person_name <$> evidence)
  ∧ (∀ n, n ∈ ev_person_name <$> evidence ↔ n ∈ sub_person_name <$> submission)
  ∧ (∀ r, r ∈ evidence →
       ev_modality r = "written" ∨ ev_modality r = "pronounced").

(** The errors of the four evidence checks. *)
Definition evidence_reason (reason : Reason) : Prop :=
  match reason with
  | InvalidVideo _ _ | DuplicatePersonName _ | ExtraPersonName _
  | MissingPersonName _ | IncorrectModality _ | IncorrectTimestamp _
  | NegativeTimestamp _ => True
  | InvalidPersonName _ | InvalidShot _ _ _ | IncorrectConfidence _ => False
  end.



(** A method whose outcome is the same on any two engines related by [R]. *)
Definition respects {A} (R : Validation → Validation → Prop) (m : Py A) : Prop :=
  ∀ s1 s2, R s1 s2 → outcome m s1 = outcome m s2.

(** ** Concrete collaborators, to run the engine on examples *)

(** Sets hand out their elements in the order of [elements]. *)
#[local] Instance elements_order : HashOrder :=
  {| hash_iter := λ A _ _ X, elements X;
     hash_iter_perm := λ A _ _ X, reflexivity (elements X) |}.

Definition finite_one : float32 := S754_finite false 8388608 (-23).
Definition minus_one : float32 := S754_finite true 8388608 (-23).

Definition sub_row (c v s n : string) (x : float32) : SubmissionRow :=
  {| sub_corpus_id := c; sub_video_id := v; sub_shot_id := s;
     sub_person_name := n; sub_confidence := x |}.

Definition ev_row (n c v m : string) (t : float32) : EvidenceRow :=
  {| ev_person_name := n; ev_corpus_id := c; ev_video_id := v;
     ev_modality := m; ev_timestamp := t |}.

(** A small file system: one shot list, one video list, a few submissions and
    evidence files. *)
Definition demo_shots : list ShotRow :=
  [ {| shot_corpus_id := "C1"; shot_video_id := "V1"; shot_shot_id := "S1";
       shot_start_time := zero; shot_end_time := finite_one |} ].

Definition demo_videos : list VideoRow :=
  [ {| video_corpus_id := "C1"; video_video_id := "V1" |} ].

Definition demo_submission : Submission :=
  [ sub_row "C1" "V1" "S1" "alice" finite_one;
    sub_row "C1" "V1" "S1" "bob" zero ].

Definition demo_evidence : Evidence :=
  [ ev_row "alice" "C1" "V1" "written" zero;
    ev_row "bob" "C1" "V1" "pronounced" finite_one ].

Definition bad_name_submission : Submission :=
  [ sub_row "C1" "V1" "S1" "alice" finite_one;
    sub_row "C1" "V1" "S1" "Jean-Paul" finite_one ].

Definition bad_shot_submission : Submission :=
  [ sub_row "C1" "V1" "S2" "alice" S754_nan ].

Definition bad_video_evidence : Evidence :=
  [ ev_row "alice" "C1" "V9" "written" zero;
    ev_row "bob" "C1" "V1" "pronounced" finite_one ].

#[local] Instance demo_files : Pandas :=
  {| read_shots path :=
       if String.eqb path "shots.lst" then inr demo_shots
       else inl "No such file";
     read_videos path :=
       if String.eqb path "videos.lst" then inr demo_videos
       else inl "No such file";
     read_submission path :=
       if String.eqb path "submission.txt" then inr demo_submission
       else if String.eqb path "bad_name.txt" then inr bad_name_submission
       else if String.eqb path "bad_shot.txt" then inr bad_shot_submission
       else inl "No such file";
     read_evidence path :=
       if String.eqb path "evidence.txt" then inr demo_evidence
       else if String.eqb path "bad_video.txt" then inr bad_video_evidence
       else inl "No such file" |}.

(** The same shot as [demo_shots], listed twice and with other times, and a
    file system that has both lists. *)
Definition demo_shots_again : list ShotRow :=
  [ {| shot_corpus_id := "C1"; shot_video_id := "V1"; shot_shot_id := "S1";
       shot_start_time := finite_one; shot_end_time := finite_one |};
    {| shot_corpus_id := "C1"; shot_video_id := "V1"; shot_shot_id := "S1";
       shot_start_time := zero; shot_end_time := finite_one |} ].

Definition two_shot_lists : Pandas :=
  {| read_shots path :=
       if String.eqb path "shots.lst" then inr demo_shots
       else if String.eqb path "shots_again.lst" then inr demo_shots_again
       else inl "No such file";
     read_videos := @read_videos demo_files;
     read_submission := @read_submission demo_files;
     read_evidence := @read_evidence demo_files |}.

(** The submission and the evidence of the examples with their rows in the
    other order. *)
Definition demo_submission_reversed : Submission :=
  [ sub_row "C1" "V1" "S1" "bob" zero;
    sub_row "C1" "V1" "S1" "alice" finite_one ].

Definition demo_evidence_reversed : Evidence :=
  [ ev_row "bob" "C1" "V1" "pronounced" finite_one;
    ev_row "alice" "C1" "V1" "written" zero ].

Definition reordered_files : Pandas :=
  {| read_shots := @read_shots demo_files;
     read_videos := @read_videos demo_files;
     read_submission path :=
       if String.eqb path "reversed.txt" then inr demo_submission_reversed
       else @read_submission demo_files path;
     read_evidence path :=
       if String.eqb path "reversed_evidence.txt" then inr demo_evidence_reversed
       else @read_evidence demo_files path |}.

(** Sets hand out their elements in the reverse of the order of [elements]. *)
Definition reverse_order : HashOrder :=
  {| hash_iter := λ A _ _ X, reverse (elements X);
     hash_iter_perm := λ A _ _ X, reverse_Permutation (elements X) |}.

(** The engine built with both reference lists, and the one built with none. *)
Definition demo_engine : Validation :=
  {| shots := Some "shots.lst"; shots_ := Some {[ ("C1", "V1", "S1") ]};
     videos := Some "videos.lst"; videos_ := Some {[ ("C1", "V1") ]} |}.

Definition open_engine : Validation := blank.

(** * Properties *)

(** ** Messages *)

Example message_confidence_line_3 :
  MESSAGE (IncorrectConfidence 3) = "Incorrect confidence in submission at line 3".
Proof. reflexivity. Qed.

Example message_invalid_shot :
  MESSAGE (InvalidShot "C1" "V1" "S2") = "Invalid shot (C1 V1 S2)".
Proof. reflexivity. Qed.

(** ** Floats *)

Lemma isfinite_false (x : float32) : isfinite x = false ↔ non_finite x.
Proof.
  unfold non_finite. destruct x as [s| s| |s m e]; simpl; split;
    try discriminate; try tauto; eauto.
  - intros [?|[? ?]]; discriminate.
  - intros [?|[? ?]]; discriminate.
Qed.

Lemma isfinite_true (x : float32) : isfinite x = true ↔ ¬ non_finite x.
Proof.
  rewrite <- isfinite_false. destruct (isfinite x); split; congruence.
Qed.

(** On finite values, "not below zero" and "at least zero" coincide. *)
Lemma finite_not_negative (x : float32) :
  isfinite x = true → (¬ negative x ↔ non_negative x).
Proof.
  unfold negative, non_negative, zero, SFltb, SFleb.
  destruct x as [s| s| |[] m e]; simpl; try discriminate; intros _;
    split; congruence.
Qed.

(** ** Positions selected by a mask *)

Lemma first_row_unique {A} (P : A → Prop) rows i j :
  first_row P rows i → first_row P rows j → i = j.
Proof.
  intros [[x [Hx HPx]] Hi] [[y [Hy HPy]] Hj].
  destruct (Nat.lt_trichotomy i j) as [Hlt|[->|Hlt]]; [|done|].
  - destruct (Hj i x Hlt Hx HPx).
  - destruct (Hi j y Hlt Hy HPy).
Qed.

Lemma first_row_cons_hit {A} (P : A → Prop) x rows :
  P x → first_row P (x :: rows) 0.
Proof. intros HP. split; [by exists x | intros j y Hj; lia]. Qed.

Lemma first_row_cons_miss {A} (P : A → Prop) x rows i :
  ¬ P x → first_row P rows i → first_row P (x :: rows) (S i).
Proof.
  intros HnP [[y [Hy HPy]] Hbefore]. split; [by exists y |].
  intros [|j] z Hj Hz; simpl in Hz.
  - by injection Hz as <-.
  - apply (Hbefore j z); [lia | done].
Qed.

Lemma np_where_from_first {A} (p : A → bool) rows k :
  match np_where_from k (p <$> rows) with
  | [] => ∀ x, x ∈ rows → p x = false
  | i :: _ => ∃ j, i = k + j ∧ first_row (λ x, p x = true) rows j
  end.
Proof.
  revert k. induction rows as [|x rows IH]; intros k; csimpl.
  - intros x Hx. by apply elem_of_nil in Hx.
  - destruct (p x) eqn:Hpx.
    + exists 0. split; [lia | by apply first_row_cons_hit].
    + specialize (IH (S k)).
      destruct (np_where_from (S k) (p <$> rows)) as [|i rest].
      * intros y Hy. apply elem_of_cons in Hy as [->|Hy]; auto.
      * destruct IH as [j [-> Hj]]. exists (S j). split; [lia |].
        apply first_row_cons_miss; [congruence | done].
Qed.

Lemma np_where_first {A} (p : A → bool) rows :
  match np_where (p <$> rows) with
  | [] => ∀ x, x ∈ rows → p x = false
  | i :: _ => first_row (λ x, p x = true) rows i
  end.
Proof.
  unfold np_where. pose proof (np_where_from_first p rows 0) as Hw.
  destruct (np_where_from 0 (p <$> rows)); [done |].
  by destruct Hw as [j [-> Hj]].
Qed.

(** ** Duplicated keys *)

Lemma mask_select_fmap {A B} (f : A → B) mask rows :
  f <$> mask_select mask rows = mask_select mask (f <$> rows).
Proof.
  revert rows. induction mask as [|[] mask IH]; intros [|r rows]; simpl;
    by rewrite ?IH.
Qed.

Lemma occurs_twice_cons k k0 keys :
  occurs_twice k keys → occurs_twice k (k0 :: keys).
Proof. intros (i & j & Hij & Hi & Hj). exists (S i), (S j). by repeat split; [lia|..]. Qed.

Lemma occurs_twice_head k keys : k ∈ keys → occurs_twice k (k :: keys).
Proof.
  intros Hk. apply list_elem_of_lookup in Hk as [j Hj].
  exists 0, (S j). by repeat split; [lia|..].
Qed.

Lemma occurs_twice_NoDup k keys : occurs_twice k keys → ¬ NoDup keys.
Proof.
  intros (i & j & Hij & Hi & Hj) Hnd.
  pose proof (NoDup_lookup _ _ _ _ Hnd Hi Hj). lia.
Qed.

Lemma duplicated_from_selected seen keys k :
  k ∈ mask_select (duplicated_from seen keys) keys →
  k ∈ keys ∧ (k ∈ seen ∨ occurs_twice k keys).
Proof.
  revert seen. induction keys as [|k0 keys IH]; intros seen; simpl.
  - intros Hk. by apply elem_of_nil in Hk.
  - case_bool_decide as Hseen.
    + intros Hk. apply elem_of_cons in Hk as [->|Hk].
      * split; [apply elem_of_cons; by left | by left].
      * apply IH in Hk as [Hin [Hk|Hk]].
        -- split; [apply elem_of_cons; by right |].
           apply elem_of_cons in Hk as [->|Hk]; [| by left].
           right. by apply occurs_twice_head.
        -- split; [apply elem_of_cons; by right |].
           right. by apply occurs_twice_cons.
    + intros Hk. apply IH in Hk as [Hin [Hk|Hk]].
      * split; [apply elem_of_cons; by right |].
        apply elem_of_cons in Hk as [->|Hk]; [| by left].
        right. by apply occurs_twice_head.
      * split; [apply elem_of_cons; by right |].
        right. by apply occurs_twice_cons.
Qed.

Lemma duplicated_selected keys k :
  k ∈ mask_select (duplicated keys) keys → occurs_twice k keys.
Proof.
  intros Hk. apply duplicated_from_selected in Hk as [_ [Hk|Hk]]; [| done].
  by apply elem_of_nil in Hk.
Qed.

Lemma any_duplicated_from_false seen keys :
  any (duplicated_from seen keys) = false ↔
  NoDup keys ∧ ∀ k, k ∈ keys → k ∉ seen.
Proof.
  unfold any. revert seen. induction keys as [|k0 keys IH]; intros seen; simpl.
  - split; [intros _ | done]. split; [constructor |].
    intros k Hk. by apply elem_of_nil in Hk.
  - rewrite orb_false_iff, IH, NoDup_cons. unfold id.
    rewrite bool_decide_eq_false. split.
    + intros (Hk0 & Hnd & Hseen). repeat split; [| done |].
      * intros Hin. apply (Hseen k0 Hin). apply elem_of_cons. by left.
      * intros k Hk. apply elem_of_cons in Hk as [->|Hk]; [done |].
        intros Hin. apply (Hseen k Hk). apply elem_of_cons. by right.
    + intros ((Hk0 & Hnd) & Hseen). repeat split; [| done |].
      * apply Hseen. apply elem_of_cons. by left.
      * intros k Hk Hin. apply elem_of_cons in Hin as [->|Hin]; [done |].
        apply (Hseen k); [apply elem_of_cons; by right | done].
Qed.

Lemma any_duplicated_false keys : any (duplicated keys) = false ↔ NoDup keys.
Proof.
  unfold duplicated. rewrite any_duplicated_from_false. split; [by intros [? _] |].
  intros Hnd. split; [done |]. intros k _ Hk. by apply elem_of_nil in Hk.
Qed.

Lemma any_true_selected {A} mask (rows : list A) :
  length mask = length rows → any mask = true → mask_select mask rows ≠ [].
Proof.
  unfold any. revert rows. induction mask as [|[] mask IH]; intros [|r rows];
    simpl; try done.
  intros Hlen Hany. apply IH; [lia | done].
Qed.

Lemma length_duplicated_from seen keys :
  length (duplicated_from seen keys) = length keys.
Proof.
  revert seen. induction keys as [|k keys IH]; intros seen; simpl; [done |].
  by rewrite IH.
Qed.

Lemma elem_of_unique_from seen keys k :
  k ∈ mask_select (negb <$> duplicated_from seen keys) keys ↔ k ∈ keys ∧ k ∉ seen.
Proof.
  revert seen. induction keys as [|k0 keys IH]; intros seen; simpl.
  - split; [intros Hk | intros [Hk _]]; by apply elem_of_nil in Hk.
  - case_bool_decide as Hseen; simpl.
    + rewrite IH, !elem_of_cons. split.
      * intros [Hk Hn]. split; [by right |]. intros Hin. apply Hn. by right.
      * intros [[->|Hk] Hn]; [done |]. split; [done |].
        intros [->|Hin]; done.
    + rewrite elem_of_cons, IH, !elem_of_cons. split.
      * intros [->|[Hk Hn]]; [split; [by left | done] |].
        split; [by right |]. intros Hin. apply Hn. by right.
      * intros [[->|Hk] Hn]; [by left |].
        destruct (decide (k = k0)) as [->|Hne]; [by left | right].
        split; [done |]. by intros [?|?].
Qed.

Lemma elem_of_unique keys k : k ∈ unique keys ↔ k ∈ keys.
Proof.
  unfold unique, duplicated. rewrite elem_of_unique_from. split; [by intros [? _] |].
  intros Hk. split; [done |]. intros Hin. by apply elem_of_nil in Hin.
Qed.

(** The set of a column: exactly the values of the column. *)
Lemma elem_of_column {A} (f : A → string) (rows : list A) k :
  k ∈ (list_to_set (unique (f <$> rows)) : gset string) ↔ ∃ r, r ∈ rows ∧ f r = k.
Proof.
  rewrite elem_of_list_to_set, elem_of_unique, list_elem_of_fmap.
  split; [intros (r & -> & Hr) | intros (r & Hr & <-)]; by exists r.
Qed.

(** ** Sets: [pop] and the allowed alphabet *)

Lemma pop_Some `{HashOrder} `{Countable A} (X : gset A) x X' :
  pop X = Some (x, X') → x ∈ X ∧ X' = X ∖ {[ x ]}.
Proof.
  unfold pop. pose proof (hash_iter_perm X) as Hperm.
  destruct (hash_iter X) as [|y l]; [done |].
  intros [= <- <-]. split; [| done].
  apply elem_of_elements. rewrite <- Hperm. apply elem_of_cons. by left.
Qed.

Lemma pop_nonempty `{HashOrder} `{Countable A} (X : gset A) :
  X ≠ ∅ → ∃ x, x ∈ X ∧ pop X = Some (x, X ∖ {[ x ]}).
Proof.
  intros Hne. unfold pop. pose proof (hash_iter_perm X) as Hperm.
  destruct (hash_iter X) as [|y l] eqn:Hiter.
  - symmetry in Hperm. apply Permutation_nil_r in Hperm.
    apply elements_empty_inv in Hperm. destruct Hne. by apply leibniz_equiv.
  - exists y. split; [| done].
    apply elem_of_elements. rewrite <- Hperm. apply elem_of_cons. by left.
Qed.

(** Popping a non-empty set never raises, and yields one of its elements. *)
Lemma pop_or_raise_nonempty `{HashOrder} `{Countable A} (X : gset A) self :
  X ≠ ∅ → ∃ x, x ∈ X ∧ pop_or_raise X self = (self, inr (x, X ∖ {[ x ]})).
Proof.
  intros Hne. destruct (pop_nonempty X Hne) as (x & Hx & Hpop).
  exists x. split; [done |]. unfold pop_or_raise. by rewrite Hpop.
Qed.

Lemma allowedb_spec c : allowedb c = true ↔ lowercase_or_underscore c.
Proof.
  unfold allowedb, lowercase_or_underscore.
  rewrite orb_true_iff, andb_true_iff, !Nat.leb_le, Nat.eqb_eq.
  change (nat_of_ascii "a") with 97. change (nat_of_ascii "z") with 122.
  split; (intros [?|Hc]; [by left | right]).
  - rewrite <- (ascii_nat_embedding c), Hc. reflexivity.
  - by rewrite Hc.
Qed.

Lemma ALLOWED_CHARACTERS_allowedb c :
  bool_decide (c ∈ ALLOWED_CHARACTERS) = allowedb c.
Proof.
  destruct c as [[] [] [] [] [] [] [] []]; vm_compute; reflexivity.
Qed.

Lemma elem_of_ALLOWED_CHARACTERS c :
  c ∈ ALLOWED_CHARACTERS ↔ lowercase_or_underscore c.
Proof.
  rewrite <- allowedb_spec, <- ALLOWED_CHARACTERS_allowedb.
  by rewrite bool_decide_eq_true.
Qed.

Lemma chars_allowed name : chars name ⊆ ALLOWED_CHARACTERS ↔ in_alphabet name.
Proof.
  unfold chars, in_alphabet. rewrite elem_of_subseteq. split.
  - intros Hsub c Hc. apply elem_of_ALLOWED_CHARACTERS, Hsub.
    by apply elem_of_list_to_set.
  - intros Hall c Hc. apply elem_of_ALLOWED_CHARACTERS, Hall.
    by apply elem_of_list_to_set in Hc.
Qed.

Lemma elem_of_hash_iter `{HashOrder} `{Countable A} (X : gset A) x :
  x ∈ hash_iter X ↔ x ∈ X.
Proof. by rewrite (hash_iter_perm X), elem_of_elements. Qed.

(** ** Methods that only read [self] *)

Create HintDb frame.

Lemma read_only_run {A} (m : Py A) self :
  read_only m → m self = (self, outcome m self).
Proof.
  intros Hm. specialize (Hm self). unfold after, outcome in *.
  destruct (m self) as [self' r]; simpl in *. by subst.
Qed.

Lemma read_only_ret {A} (a : A) : read_only (ret a).
Proof. done. Qed.

Lemma read_only_raise {A} e : read_only (@raise A e).
Proof. done. Qed.

Lemma read_only_attr {A} (field : Validation → A) : read_only (attr field).
Proof. done. Qed.

Lemma read_only_attr_opt {A} name (field : Validation → option A) :
  read_only (attr_opt name field).
Proof. intros self. unfold after, attr_opt. by destruct (field self). Qed.

Lemma read_only_lift {A} (r : string + A) : read_only (lift r).
Proof. intros self. unfold after, lift. by destruct r. Qed.

Lemma read_only_bind {A B} (m : Py A) (k : A → Py B) :
  read_only m → (∀ a, read_only (k a)) → read_only (bind m k).
Proof.
  intros Hm Hk self. unfold after, bind. rewrite (read_only_run m self Hm).
  destruct (outcome m self) as [e|a]; [done |]. apply Hk.
Qed.

Lemma read_only_if {A} (b : bool) (m1 m2 : Py A) :
  read_only m1 → read_only m2 → read_only (if b then m1 else m2).
Proof. by destruct b. Qed.

Lemma read_only_for_each {A} (xs : list A) body :
  (∀ x, read_only (body x)) → read_only (for_each xs body).
Proof.
  intros Hbody. induction xs as [|x xs IH]; simpl.
  - apply read_only_ret.
  - apply read_only_bind; [apply Hbody | by intros _].
Qed.

Lemma read_only_when_truthy path body :
  (∀ p, read_only (body p)) → read_only (when_truthy path body).
Proof.
  intros Hbody. destruct path as [p|]; simpl; [| done].
  by apply read_only_if.
Qed.

Lemma read_only_pop_or_raise `{HashOrder} `{Countable A} (X : gset A) :
  read_only (pop_or_raise X).
Proof. intros self. unfold after, pop_or_raise. by destruct (pop X). Qed.

#[local] Hint Resolve read_only_ret read_only_raise read_only_attr
  read_only_attr_opt read_only_lift read_only_if read_only_pop_or_raise : frame.
#[local] Hint Extern 2 (read_only (bind _ _)) =>
  apply read_only_bind; [| intros ?] : frame.
#[local] Hint Extern 2 (read_only (for_each _ _)) =>
  apply read_only_for_each; intros ? : frame.
#[local] Hint Extern 2 (read_only (when_truthy _ _)) =>
  apply read_only_when_truthy; intros ? : frame.
#[local] Hint Extern 3 (read_only (match ?x with _ => _ end)) =>
  destruct x : frame.

Lemma read_only_submission_person_names `{HashOrder} submission :
  read_only (__submission_person_names submission).
Proof. unfold __submission_person_names. auto 10 with frame. Qed.

Lemma read_only_submission_shots `{HashOrder} submission :
  read_only (__submission_shots submission).
Proof. unfold __submission_shots. auto 10 with frame. Qed.

Lemma read_only_submission_confidence submission :
  read_only (__submission_confidence submission).
Proof. unfold __submission_confidence. auto 10 with frame. Qed.

Lemma read_only_evidence_videos `{HashOrder} evidence :
  read_only (__evidence_videos evidence).
Proof. unfold __evidence_videos. auto 10 with frame. Qed.

Lemma read_only_evidence_timestamps evidence :
  read_only (__evidence_timestamps evidence).
Proof. unfold __evidence_timestamps. auto 10 with frame. Qed.

Lemma read_only_evidence_person_names `{HashOrder} submission evidence :
  read_only (__evidence_person_names submission evidence).
Proof. unfold __evidence_person_names. auto 10 with frame. Qed.

Lemma read_only_evidence_modalities `{HashOrder} evidence :
  read_only (__evidence_modalities evidence).
Proof. unfold __evidence_modalities. auto 10 with frame. Qed.

#[local] Hint Resolve read_only_submission_person_names
  read_only_submission_shots read_only_submission_confidence
  read_only_evidence_videos read_only_evidence_timestamps
  read_only_evidence_person_names read_only_evidence_modalities : frame.

Lemma read_only_call `{Pandas} `{HashOrder} fp_submission fp_evidence :
  read_only (__call__ fp_submission fp_evidence).
Proof.
  unfold __call__, _load_submission, _load_evidence. auto 20 with frame.
Qed.

(** ** What each check does *)

Lemma first_row_ext {A} (P Q : A → Prop) rows i :
  (∀ x, P x ↔ Q x) → first_row P rows i → first_row Q rows i.
Proof.
  intros HPQ [[x [Hx HPx]] Hbefore]. split.
  - exists x. split; [done | by apply HPQ].
  - intros j y Hj Hy HQ. apply (Hbefore j y Hj Hy). by apply HPQ.
Qed.

(** A loop that raises on the first element failing a test. *)
Lemma for_each_guard {A} (bad : A → bool) (E : A → Exception) xs self :
  for_each xs (λ x, if bad x then raise (E x) else ret tt) self =
  (self, match find bad xs with Some x => inl (E x) | None => inr tt end).
Proof.
  induction xs as [|x xs IH]; simpl; [done |].
  unfold bind. destruct (bad x); simpl; [done | apply IH].
Qed.

Lemma submission_person_names_cases `{HashOrder} submission self :
  ((∀ r, r ∈ submission → in_alphabet (sub_person_name r)) ∧
   __submission_person_names submission self = (self, inr PyTrue))
  ∨ (∃ name, (∃ r, r ∈ submission ∧ sub_person_name r = name) ∧
       ¬ in_alphabet name ∧
       __submission_person_names submission self =
         (self, inl (ValueError (InvalidPersonName name)))).
Proof.
  unfold __submission_person_names, bind.
  rewrite (for_each_guard
             (λ n, negb (bool_decide (chars n ⊆ ALLOWED_CHARACTERS)))
             (λ n, ValueError (InvalidPersonName n))).
  destruct (find _ _) as [name|] eqn:Hfind.
  - right. exists name. apply find_some in Hfind as [Hin Hbad].
    apply list_elem_of_In, elem_of_hash_iter, elem_of_column in Hin.
    apply negb_true_iff, bool_decide_eq_false in Hbad.
    repeat split; [done | by rewrite <- chars_allowed].
  - left. split; [| done]. intros r Hr.
    apply chars_allowed.
    pose proof (find_none _ _ Hfind (sub_person_name r)) as Hok. simpl in Hok.
    rewrite negb_false_iff, bool_decide_eq_true in Hok. apply Hok.
    apply list_elem_of_In, elem_of_hash_iter, elem_of_column. by exists r.
Qed.

Lemma elem_of_shots (submission : Submission) t :
  t ∈ (list_to_set (shot_of <$> submission) : gset Shot) ↔
  ∃ r, r ∈ submission ∧ shot_of r = t.
Proof.
  rewrite elem_of_list_to_set, list_elem_of_fmap.
  split; [intros (r & -> & Hr) | intros (r & Hr & <-)]; by exists r.
Qed.

Lemma elem_of_videos (evidence : Evidence) t :
  t ∈ (list_to_set (video_of <$> evidence) : gset Video) ↔
  ∃ r, r ∈ evidence ∧ video_of r = t.
Proof.
  rewrite elem_of_list_to_set, list_elem_of_fmap.
  split; [intros (r & -> & Hr) | intros (r & Hr & <-)]; by exists r.
Qed.

Lemma difference_empty_subseteq `{Countable A} (X Y : gset A) :
  X ∖ Y = ∅ ↔ X ⊆ Y.
Proof.
  split.
  - intros Hempty x Hx. destruct (decide (x ∈ Y)) as [|Hn]; [done |].
    assert (x ∈ X ∖ Y) as Hd by (apply elem_of_difference; done).
    rewrite Hempty in Hd. by apply not_elem_of_empty in Hd.
  - intros Hsub. apply leibniz_equiv, elem_of_equiv_empty.
    intros x [Hx Hn]%elem_of_difference. by apply Hn, Hsub.
Qed.

Lemma submission_shots_cases `{HashOrder} submission self reference :
  shots_ self = Some reference →
  ((∀ r, r ∈ submission → shot_of r ∈ reference) ∧
   __submission_shots submission self = (self, inr PyTrue))
  ∨ (∃ c v s, (∃ r, r ∈ submission ∧ shot_of r = (c, v, s)) ∧
       ((c, v, s) ∉ reference) ∧
       __submission_shots submission self =
         (self, inl (ValueError (InvalidShot c v s)))).
Proof.
  intros Href. unfold __submission_shots, bind, attr_opt. rewrite Href.
  change (λ r, (sub_corpus_id r, sub_video_id r, sub_shot_id r)) with shot_of.
  case_bool_decide as Hinvalid.
  - right. destruct (pop_or_raise_nonempty _ self Hinvalid) as ([[c v] s] & Hx & ->).
    exists c, v, s. apply elem_of_difference in Hx as [Hx Hn].
    by apply elem_of_shots in Hx.
  - left. split; [| done]. intros r Hr.
    apply difference_empty_subseteq in Hinvalid.
    apply Hinvalid, elem_of_shots. by exists r.
Qed.

Lemma submission_shots_unset `{HashOrder} submission self :
  shots_ self = None →
  __submission_shots submission self = (self, inl (AttributeError "shots_")).
Proof. intros Href. unfold __submission_shots, bind, attr_opt. by rewrite Href. Qed.

Lemma evidence_videos_cases `{HashOrder} evidence self reference :
  videos_ self = Some reference →
  ((∀ r, r ∈ evidence → video_of r ∈ reference) ∧
   __evidence_videos evidence self = (self, inr PyTrue))
  ∨ (∃ c v, (∃ r, r ∈ evidence ∧ video_of r = (c, v)) ∧
       ((c, v) ∉ reference) ∧
       __evidence_videos evidence self =
         (self, inl (ValueError (InvalidVideo c v)))).
Proof.
  intros Href. unfold __evidence_videos, bind, attr_opt. rewrite Href.
  change (λ r, (ev_corpus_id r, ev_video_id r)) with video_of.
  case_bool_decide as Hinvalid.
  - right. destruct (pop_or_raise_nonempty _ self Hinvalid) as ([c v] & Hx & ->).
    exists c, v. apply elem_of_difference in Hx as [Hx Hn].
    by apply elem_of_videos in Hx.
  - left. split; [| done]. intros r Hr.
    apply difference_empty_subseteq in Hinvalid.
    apply Hinvalid, elem_of_videos. by exists r.
Qed.

Lemma submission_confidence_cases submission self :
  ((∀ r, r ∈ submission → isfinite (sub_confidence r) = true) ∧
   __submission_confidence submission self = (self, inr PyTrue))
  ∨ (∃ i, first_row (λ r, non_finite (sub_confidence r)) submission i ∧
       __submission_confidence submission self =
         (self, inl (ValueError (IncorrectConfidence (i + 1))))).
Proof.
  unfold __submission_confidence. rewrite <- list_fmap_compose.
  pose proof (np_where_first ((λ x, negb (isfinite x)) ∘ sub_confidence) submission)
    as Hwhere.
  destruct (np_where _) as [|i rest].
  - left. split; [| done]. intros r Hr. specialize (Hwhere r Hr). simpl in Hwhere.
    by apply negb_false_iff in Hwhere.
  - right. exists i. split; [| done].
    eapply first_row_ext; [| exact Hwhere]. intros r. simpl.
    by rewrite negb_true_iff, isfinite_false.
Qed.

Lemma evidence_timestamps_cases evidence self :
  ((∀ r, r ∈ evidence →
      isfinite (ev_timestamp r) = true ∧ ¬ negative (ev_timestamp r)) ∧
   __evidence_timestamps evidence self = (self, inr PyTrue))
  ∨ (∃ i, first_row (λ r, non_finite (ev_timestamp r)) evidence i ∧
       __evidence_timestamps evidence self =
         (self, inl (ValueError (IncorrectTimestamp (i + 1)))))
  ∨ (∃ i, (∀ r, r ∈ evidence → isfinite (ev_timestamp r) = true) ∧
       first_row (λ r, negative (ev_timestamp r)) evidence i ∧
       __evidence_timestamps evidence self =
         (self, inl (ValueError (NegativeTimestamp (i + 1))))).
Proof.
  unfold __evidence_timestamps. rewrite <- !list_fmap_compose.
  pose proof (np_where_first ((λ x, negb (isfinite x)) ∘ ev_timestamp) evidence)
    as Hfinite.
  destruct (np_where _) as [|i rest].
  - assert (∀ r, r ∈ evidence → isfinite (ev_timestamp r) = true) as Hall.
    { intros r Hr. specialize (Hfinite r Hr). simpl in Hfinite.
      by apply negb_false_iff in Hfinite. }
    pose proof (np_where_first ((λ x, SFltb x zero) ∘ ev_timestamp) evidence)
      as Hneg.
    destruct (np_where _) as [|j rest].
    + left. split; [| done]. intros r Hr. split; [by apply Hall |].
      specialize (Hneg r Hr). simpl in Hneg. unfold negative. congruence.
    + right. right. exists j. split; [exact Hall |]. split; [exact Hneg | done].
  - right. left. exists i. split; [| done].
    eapply first_row_ext; [| exact Hfinite]. intros r. simpl.
    by rewrite negb_true_iff, isfinite_false.
Qed.

Lemma list_to_set_empty_nil `{Countable A} (l : list A) :
  (list_to_set l : gset A) = ∅ → l = [].
Proof.
  destruct l as [|x l]; [done |]. intros Hempty.
  assert (x ∈ (list_to_set (x :: l) : gset A)) as Hx.
  { apply elem_of_list_to_set, elem_of_cons. by left. }
  rewrite Hempty in Hx. by apply not_elem_of_empty in Hx.
Qed.

Lemma evidence_person_names_cases `{HashOrder} submission evidence self :
  let sub_names := sub_person_name <$> submission in
  let ev_names := ev_person_name <$> evidence in
  (NoDup ev_names ∧ (∀ n, n ∈ ev_names ↔ n ∈ sub_names) ∧
   __evidence_person_names submission evidence self = (self, inr PyTrue))
  ∨ (∃ n, occurs_twice n ev_names ∧
       __evidence_person_names submission evidence self =
         (self, inl (ValueError (DuplicatePersonName n))))
  ∨ (∃ n, NoDup ev_names ∧ n ∈ ev_names ∧ (n ∉ sub_names) ∧
       __evidence_person_names submission evidence self =
         (self, inl (ValueError (ExtraPersonName n))))
  ∨ (∃ n, NoDup ev_names ∧ (∀ k, k ∈ ev_names → k ∈ sub_names) ∧
       n ∈ sub_names ∧ (n ∉ ev_names) ∧
       __evidence_person_names submission evidence self =
         (self, inl (ValueError (MissingPersonName n)))).
Proof.
  intros sub_names ev_names. unfold __evidence_person_names.
  fold sub_names ev_names.
  assert (∀ n, n ∈ (list_to_set (unique sub_names) : gset string) ↔ n ∈ sub_names)
    as Hsub by (intros n; by rewrite elem_of_list_to_set, elem_of_unique).
  assert (∀ n, n ∈ (list_to_set (unique ev_names) : gset string) ↔ n ∈ ev_names)
    as Hev by (intros n; by rewrite elem_of_list_to_set, elem_of_unique).
  destruct (any (duplicated ev_names)) eqn:Hdup.
  - right. left. rewrite mask_select_fmap. fold ev_names.
    assert ((list_to_set (mask_select (duplicated ev_names) ev_names) : gset string)
            ≠ ∅) as Hne.
    { intros Hempty.
      apply (any_true_selected (duplicated ev_names) ev_names);
        [apply length_duplicated_from | done |].
      by apply list_to_set_empty_nil. }
    unfold bind.
    destruct (pop_or_raise_nonempty _ self Hne) as (n & Hn & ->).
    exists n. split; [| done].
    apply duplicated_selected. by apply elem_of_list_to_set in Hn.
  - apply any_duplicated_false in Hdup.
    case_bool_decide as Hextra.
    + right. right. left. unfold bind.
      destruct (pop_or_raise_nonempty _ self Hextra) as (n & Hn & ->).
      exists n. apply elem_of_difference in Hn as [Hn1 Hn2].
      rewrite Hev in Hn1. rewrite Hsub in Hn2. done.
    + apply difference_empty_subseteq in Hextra.
      assert (∀ k, k ∈ ev_names → k ∈ sub_names) as Hincl.
      { intros k Hk. apply Hsub, Hextra, Hev, Hk. }
      case_bool_decide as Hmissing.
      * right. right. right. unfold bind.
        destruct (pop_or_raise_nonempty _ self Hmissing) as (n & Hn & ->).
        exists n. apply elem_of_difference in Hn as [Hn1 Hn2].
        rewrite Hsub in Hn1. rewrite Hev in Hn2. done.
      * apply difference_empty_subseteq in Hmissing.
        left. split; [done |]. split; [| done].
        intros n. split; [apply Hincl |].
        intros Hn. apply Hev, Hmissing, Hsub, Hn.
Qed.

Lemma elem_of_MODALITIES m : m ∈ MODALITIES ↔ m = "written" ∨ m = "pronounced".
Proof. unfold MODALITIES. by rewrite elem_of_union, !elem_of_singleton. Qed.

Lemma evidence_modalities_cases `{HashOrder} evidence self :
  ((∀ r, r ∈ evidence → ev_modality r ∈ MODALITIES) ∧
   __evidence_modalities evidence self = (self, inr PyNone))
  ∨ (∃ m, (∃ r, r ∈ evidence ∧ ev_modality r = m) ∧ (m ∉ MODALITIES) ∧
       __evidence_modalities evidence self =
         (self, inl (ValueError (IncorrectModality m)))).
Proof.
  unfold __evidence_modalities. case_bool_decide as Hsub; simpl.
  - left. split; [| done]. intros r Hr. apply Hsub, elem_of_column. by exists r.
  - right. unfold bind.
    assert (list_to_set (unique (ev_modality <$> evidence)) ∖ MODALITIES ≠ ∅)
      as Hne by (by rewrite difference_empty_subseteq).
    destruct (pop_or_raise_nonempty _ self Hne) as (m & Hm & ->).
    exists m. apply elem_of_difference in Hm as [Hm1 Hm2].
    by apply elem_of_column in Hm1.
Qed.

(** ** Construction *)

Lemma new_attributes `{Pandas} shots0 videos0 self :
  new shots0 videos0 = inr self →
  shots self = shots0 ∧ videos self = videos0 ∧
  (if truthy shots0
   then ∃ path rows, shots0 = Some path ∧ read_shots path = inr rows ∧
          shots_ self =
            Some (list_to_set
                    ((λ r, (shot_corpus_id r, shot_video_id r, shot_shot_id r))
                       <$> rows))
   else shots_ self = None) ∧
  (if truthy videos0
   then ∃ path rows, videos0 = Some path ∧ read_videos path = inr rows ∧
          videos_ self =
            Some (list_to_set
                    ((λ r, (video_corpus_id r, video_video_id r)) <$> rows))
   else videos_ self = None).
Proof.
  unfold new, __init__, bind, setattr, attr, when_truthy, _load_shots,
    _load_videos, lift, ret, blank. simpl.
  destruct shots0 as [ps|]; destruct videos0 as [pv|]; simpl.
  - destruct (negb (String.eqb ps "")) eqn:Hps;
      destruct (negb (String.eqb pv "")) eqn:Hpv; simpl;
      repeat (match goal with
              | |- context [read_shots ?p] => destruct (read_shots p) eqn:?
              | |- context [read_videos ?p] => destruct (read_videos p) eqn:?
              end; simpl);
      intros [= <-]; simpl; rewrite ?Hps, ?Hpv; repeat (split || eexists); eauto.
  - destruct (negb (String.eqb ps "")) eqn:Hps; simpl;
      repeat (match goal with
              | |- context [read_shots ?p] => destruct (read_shots p) eqn:?
              end; simpl);
      intros [= <-]; simpl; rewrite ?Hps; repeat (split || eexists); eauto.
  - destruct (negb (String.eqb pv "")) eqn:Hpv; simpl;
      repeat (match goal with
              | |- context [read_videos ?p] => destruct (read_videos p) eqn:?
              end; simpl);
      intros [= <-]; simpl; rewrite ?Hpv; repeat (split || eexists); eauto.
  - intros [= <-]; simpl; eauto.
Qed.

(** ** [__call__] as a fail-fast sequence *)

(** Run a read-only check in place and split on whether it raised. *)
Ltac run_check check self :=
  rewrite (read_only_run check self) by auto with frame;
  destruct (outcome check self) as [?e|?v]; [done |]; csimpl.

Lemma call_first_failure `{Pandas} `{HashOrder} fp_submission fp_evidence self
    submission evidence :
  read_submission fp_submission = inr submission →
  loads_evidence fp_evidence evidence →
  __call__ fp_submission fp_evidence self =
  (self, first_failure
           ((λ check, outcome check self)
              <$> applicable_checks self submission evidence)).
Proof.
  intros Hsub Hev.
  unfold __call__, applicable_checks, bind, attr, _load_submission,
    _load_evidence, lift.
  rewrite Hsub. csimpl.
  run_check (__submission_person_names submission) self.
  destruct (truthy (shots self)); csimpl;
    [run_check (__submission_shots submission) self |];
    run_check (__submission_confidence submission) self.
  all: destruct evidence as [rows|]; simpl in Hev;
    [ destruct Hev as (fp & -> & Htruthy & Hread);
      unfold when_truthy; rewrite Htruthy, Hread; csimpl
    | by destruct fp_evidence as [fp|]; simpl in *; rewrite ?Hev ].
  all: destruct (truthy (videos self)); csimpl;
    [run_check (__evidence_videos rows) self |];
    run_check (__evidence_timestamps rows) self;
    run_check (__evidence_person_names submission rows) self;
    by run_check (__evidence_modalities rows) self.
Qed.

Lemma first_failure_returns results v :
  first_failure results = inr v →
  v = PyTrue ∧ ∀ r, r ∈ results → ∃ v', r = inr v'.
Proof.
  induction results as [|[e|v'] results IH]; simpl.
  - intros [= <-]. split; [done |]. intros r Hr. by apply elem_of_nil in Hr.
  - discriminate.
  - intros Hrest. destruct (IH Hrest) as [-> Hall]. split; [done |].
    intros r Hr. apply elem_of_cons in Hr as [->|Hr]; [by eexists | by apply Hall].
Qed.

Lemma first_failure_all_return results :
  (∀ r, r ∈ results → ∃ v, r = inr v) → first_failure results = inr PyTrue.
Proof.
  induction results as [|r results IH]; simpl; [done |]. intros Hall.
  destruct (Hall r) as [v ->]; [apply elem_of_cons; by left |].
  apply IH. intros r' Hr'. apply Hall, elem_of_cons. by right.
Qed.

Lemma first_failure_raises results e :
  first_failure results = inl e ↔
  ∃ i, results !! i = Some (inl e) ∧
       ∀ j r, j < i → results !! j = Some r → ∃ v, r = inr v.
Proof.
  induction results as [|[e'|v'] results IH]; simpl.
  - split; [discriminate | by intros (i & Hi & _)].
  - split.
    + intros [= ->]. exists 0. split; [done |]. intros j r Hj. lia.
    + intros ([|i] & Hi & Hbefore); simpl in Hi; [by injection Hi as -> |].
      destruct (Hbefore 0 (inl e')) as [v Hv]; [lia | done | discriminate].
  - rewrite IH. split.
    + intros (i & Hi & Hbefore). exists (S i). split; [done |].
      intros [|j] r Hj Hr; simpl in Hr; [injection Hr as <-; by eexists |].
      apply (Hbefore j); [lia | done].
    + intros ([|i] & Hi & Hbefore); simpl in Hi; [done |].
      exists i. split; [done |]. intros j r Hj Hr.
      apply (Hbefore (S j)); [lia | done].
Qed.

(** The error a call raises was raised by one of its applicable checks. *)
Lemma first_failure_origin (checks : list (Py PyRet)) self e :
  first_failure ((λ check, outcome check self) <$> checks) = inl e ↔
  ∃ i check, checks !! i = Some check ∧ outcome check self = inl e ∧
    ∀ j check', j < i → checks !! j = Some check' → passes check' self.
Proof.
  rewrite first_failure_raises. split.
  - intros (i & Hi & Hbefore). rewrite list_lookup_fmap in Hi.
    destruct (checks !! i) as [check|] eqn:Hcheck; simpl in Hi; [| done].
    injection Hi as Hi. exists i, check. split; [done |]. split; [done |].
    intros j check' Hj Hcheck'. apply (Hbefore j); [done |].
    by rewrite list_lookup_fmap, Hcheck'.
  - intros (i & check & Hcheck & He & Hbefore). exists i. split.
    + by rewrite list_lookup_fmap, Hcheck; simpl; rewrite He.
    + intros j r Hj Hr. rewrite list_lookup_fmap in Hr.
      destruct (checks !! j) as [check'|] eqn:Hcheck'; simpl in Hr; [| done].
      injection Hr as <-. by apply (Hbefore j).
Qed.

(** ** The errors each check can raise *)

Lemma submission_person_names_raises `{HashOrder} submission self e :
  outcome (__submission_person_names submission) self = inl e →
  ∃ name, e = ValueError (InvalidPersonName name) ∧
    (∃ r, r ∈ submission ∧ sub_person_name r = name) ∧ ¬ in_alphabet name.
Proof.
  unfold outcome.
  destruct (submission_person_names_cases submission self)
    as [[_ ->]|(name & Hin & Hbad & ->)]; simpl; [done |].
  intros [= <-]. by exists name.
Qed.

Lemma submission_shots_raises `{HashOrder} submission self e :
  outcome (__submission_shots submission) self = inl e →
  e = AttributeError "shots_" ∨
  ∃ reference c v s, shots_ self = Some reference ∧
    e = ValueError (InvalidShot c v s) ∧
    (∃ r, r ∈ submission ∧ shot_of r = (c, v, s)) ∧ (c, v, s) ∉ reference.
Proof.
  unfold outcome. destruct (shots_ self) as [reference|] eqn:Href.
  - destruct (submission_shots_cases submission self reference Href)
      as [[_ ->]|(c & v & s & Hin & Hbad & ->)]; simpl; [done |].
    intros [= <-]. right. by exists reference, c, v, s.
  - rewrite submission_shots_unset by done. simpl. intros [= <-]. by left.
Qed.

Lemma submission_confidence_raises submission self e :
  outcome (__submission_confidence submission) self = inl e →
  ∃ i, e = ValueError (IncorrectConfidence (i + 1)) ∧
    first_row (λ r, non_finite (sub_confidence r)) submission i.
Proof.
  unfold outcome.
  destruct (submission_confidence_cases submission self)
    as [[_ ->]|(i & Hi & ->)]; simpl; [done |].
  intros [= <-]. by exists i.
Qed.

Lemma evidence_videos_unset `{HashOrder} evidence self :
  videos_ self = None →
  __evidence_videos evidence self = (self, inl (AttributeError "videos_")).
Proof. intros Href. unfold __evidence_videos, bind, attr_opt. by rewrite Href. Qed.

Lemma evidence_videos_raises `{HashOrder} evidence self e :
  outcome (__evidence_videos evidence) self = inl e →
  e = AttributeError "videos_" ∨
  ∃ reference c v, videos_ self = Some reference ∧
    e = ValueError (InvalidVideo c v) ∧
    (∃ r, r ∈ evidence ∧ video_of r = (c, v)) ∧ (c, v) ∉ reference.
Proof.
  unfold outcome. destruct (videos_ self) as [reference|] eqn:Href.
  - destruct (evidence_videos_cases evidence self reference Href)
      as [[_ ->]|(c & v & Hin & Hbad & ->)]; simpl; [done |].
    intros [= <-]. right. by exists reference, c, v.
  - rewrite evidence_videos_unset by done. simpl. intros [= <-]. by left.
Qed.

Lemma evidence_timestamps_raises evidence self e :
  outcome (__evidence_timestamps evidence) self = inl e →
  ∃ i, e = ValueError (IncorrectTimestamp (i + 1)) ∨
       e = ValueError (NegativeTimestamp (i + 1)).
Proof.
  unfold outcome.
  destruct (evidence_timestamps_cases evidence self)
    as [[_ ->]|[(i & _ & ->)|(i & _ & _ & ->)]]; simpl; [done | |];
    intros [= <-]; exists i; auto.
Qed.

Lemma evidence_person_names_raises `{HashOrder} submission evidence self e :
  outcome (__evidence_person_names submission evidence) self = inl e →
  ∃ n, e = ValueError (DuplicatePersonName n) ∨
       e = ValueError (ExtraPersonName n) ∨
       e = ValueError (MissingPersonName n).
Proof.
  unfold outcome.
  destruct (evidence_person_names_cases submission evidence self)
    as [(_ & _ & ->)|[(n & _ & ->)|[(n & _ & _ & _ & ->)|(n & _ & _ & _ & _ & ->)]]];
    simpl; [done | | |]; intros [= <-]; exists n; auto.
Qed.

Lemma evidence_modalities_raises `{HashOrder} evidence self e :
  outcome (__evidence_modalities evidence) self = inl e →
  ∃ m, e = ValueError (IncorrectModality m) ∧
    (∃ r, r ∈ evidence ∧ ev_modality r = m) ∧ m ∉ MODALITIES.
Proof.
  unfold outcome.
  destruct (evidence_modalities_cases evidence self)
    as [[_ ->]|(m & Hin & Hbad & ->)]; simpl; [done |].
  intros [= <-]. by exists m.
Qed.

(** ** Calls on files that cannot be read *)

Lemma call_unreadable_submission `{Pandas} `{HashOrder} fp_submission fp_evidence
    self what :
  read_submission fp_submission = inl what →
  __call__ fp_submission fp_evidence self = (self, inl (ReaderError what)).
Proof.
  intros Hsub. unfold __call__, bind, _load_submission, lift. by rewrite Hsub.
Qed.

Lemma call_unreadable_evidence `{Pandas} `{HashOrder} fp_submission fp self
    submission what :
  read_submission fp_submission = inr submission →
  truthy (Some fp) = true →
  read_evidence fp = inl what →
  __call__ fp_submission (Some fp) self =
  (self, match first_failure
                 ((λ check, outcome check self)
                    <$> applicable_checks self submission None) with
         | inl e => inl e
         | inr _ => inl (ReaderError what)
         end).
Proof.
  intros Hsub Htruthy Hread.
  unfold __call__, applicable_checks, bind, attr, _load_submission,
    _load_evidence, lift, when_truthy.
  rewrite Hsub, Htruthy, Hread. csimpl.
  run_check (__submission_person_names submission) self.
  destruct (truthy (shots self)); csimpl;
    [run_check (__submission_shots submission) self |];
    by run_check (__submission_confidence submission) self.
Qed.

Lemma elem_of_applicable_checks `{HashOrder} self submission evidence check :
  check ∈ applicable_checks self submission evidence →
  check = __submission_person_names submission
  ∨ (truthy (shots self) = true ∧ check = __submission_shots submission)
  ∨ check = __submission_confidence submission
  ∨ ∃ rows, evidence = Some rows ∧
      ((truthy (videos self) = true ∧ check = __evidence_videos rows)
       ∨ check = __evidence_timestamps rows
       ∨ check = __evidence_person_names submission rows
       ∨ check = __evidence_modalities rows).
Proof.
  unfold applicable_checks. rewrite !elem_of_app, !list_elem_of_singleton.
  intros [->|[Hshots|[->|Hev]]]; [by left | | by right; right; left |].
  - destruct (truthy (shots self)); [| by apply elem_of_nil in Hshots].
    apply list_elem_of_singleton in Hshots as ->. right. by left.
  - destruct evidence as [rows|]; [| by apply elem_of_nil in Hev].
    right. right. right. exists rows. split; [done |].
    apply elem_of_app in Hev as [Hvideos|Hrest].
    + destruct (truthy (videos self)); [| by apply elem_of_nil in Hvideos].
      apply list_elem_of_singleton in Hvideos as ->. by left.
    + rewrite !elem_of_cons in Hrest.
      destruct Hrest as [->|[->|[->|Hnil]]]; auto.
      by apply elem_of_nil in Hnil.
Qed.

(** Whatever the files hold, an error of a call is the reader's or that of
    one of the checks applicable to what was read. *)
Lemma call_raises_origin `{Pandas} `{HashOrder} fp_submission fp_evidence self e :
  outcome (__call__ fp_submission fp_evidence) self = inl e →
  (∃ what, e = ReaderError what)
  ∨ ∃ submission evidence check,
      read_submission fp_submission = inr submission ∧
      check ∈ applicable_checks self submission evidence ∧
      outcome check self = inl e.
Proof.
  unfold outcome at 1.
  destruct (read_submission fp_submission) as [what|submission] eqn:Hsub.
  { rewrite (call_unreadable_submission _ _ _ what) by done. cbn [snd].
    intros [= <-]. left. by exists what. }
  assert (∀ evidence,
    first_failure
      ((λ check, outcome check self)
         <$> applicable_checks self submission evidence) = inl e →
    ∃ submission0 evidence check,
      (inr submission : string + Submission) = inr submission0 ∧
      check ∈ applicable_checks self submission0 evidence ∧
      outcome check self = inl e) as Horigin.
  { intros evidence Hfirst.
    apply first_failure_origin in Hfirst as (i & check & Hi & He & _).
    exists submission, evidence, check. repeat split; [| done].
    apply list_elem_of_lookup. by exists i. }
  destruct (truthy fp_evidence) eqn:Htruthy.
  - destruct fp_evidence as [fp|]; [| done].
    destruct (read_evidence fp) as [what|rows] eqn:Hread.
    + rewrite (call_unreadable_evidence _ _ _ submission what) by done.
      cbn [snd].
      destruct (first_failure _) as [e'|v] eqn:Hfirst.
      * intros [= <-]. right. by apply (Horigin None).
      * intros [= <-]. left. by exists what.
    + rewrite (call_first_failure _ _ _ submission (Some rows)); [| done |].
      * cbn [snd]. intros Hfirst. right. by apply (Horigin (Some rows)).
      * by exists fp.
  - rewrite (call_first_failure _ _ _ submission None) by done. cbn [snd].
    intros Hfirst. right. by apply (Horigin None).
Qed.

(** ** Which check an error comes from *)

Lemma call_raises_invalid_person_name `{Pandas} `{HashOrder}
    fp_submission fp_evidence self name :
  outcome (__call__ fp_submission fp_evidence) self =
    inl (ValueError (InvalidPersonName name)) →
  ∃ submission, read_submission fp_submission = inr submission ∧
    (∃ r, r ∈ submission ∧ sub_person_name r = name) ∧ ¬ in_alphabet name.
Proof.
  intros Hcall.
  apply call_raises_origin in Hcall
    as [[what [=]]|(submission & evidence & check & Hsub & Hin & He)].
  exists submission. split; [done |].
  apply elem_of_applicable_checks in Hin
    as [->|[[_ ->]|[->|(rows & -> & [[_ ->]|[->|[->| ->]]])]]].
  - apply submission_person_names_raises in He as (n & [= <-] & Hn). exact Hn.
  - apply submission_shots_raises in He
      as [[=]|(? & ? & ? & ? & _ & [=] & _)].
  - apply submission_confidence_raises in He as (? & [=] & _).
  - apply evidence_videos_raises in He as [[=]|(? & ? & ? & _ & [=] & _)].
  - apply evidence_timestamps_raises in He as (? & [[=]|[=]]).
  - apply evidence_person_names_raises in He as (? & [[=]|[[=]|[=]]]).
  - apply evidence_modalities_raises in He as (? & [=] & _).
Qed.

Lemma call_raises_invalid_shot `{Pandas} `{HashOrder}
    fp_submission fp_evidence self c v s :
  outcome (__call__ fp_submission fp_evidence) self =
    inl (ValueError (InvalidShot c v s)) →
  truthy (shots self) = true ∧
  ∃ submission reference, read_submission fp_submission = inr submission ∧
    shots_ self = Some reference ∧
    (∃ r, r ∈ submission ∧ shot_of r = (c, v, s)) ∧ (c, v, s) ∉ reference.
Proof.
  intros Hcall.
  apply call_raises_origin in Hcall
    as [[what [=]]|(submission & evidence & check & Hsub & Hin & He)].
  apply elem_of_applicable_checks in Hin
    as [->|[[Hshots ->]|[->|(rows & -> & [[_ ->]|[->|[->| ->]]])]]].
  - apply submission_person_names_raises in He as (n & [=] & _).
  - apply submission_shots_raises in He
      as [[=]|(reference & ? & ? & ? & Href & [= <- <- <-] & Hr & Hn)].
    split; [done |]. by exists submission, reference.
  - apply submission_confidence_raises in He as (? & [=] & _).
  - apply evidence_videos_raises in He as [[=]|(? & ? & ? & _ & [=] & _)].
  - apply evidence_timestamps_raises in He as (? & [[=]|[=]]).
  - apply evidence_person_names_raises in He as (? & [[=]|[[=]|[=]]]).
  - apply evidence_modalities_raises in He as (? & [=] & _).
Qed.

Lemma call_raises_invalid_video `{Pandas} `{HashOrder}
    fp_submission fp_evidence self c v :
  outcome (__call__ fp_submission fp_evidence) self =
    inl (ValueError (InvalidVideo c v)) →
  truthy (videos self) = true ∧
  ∃ reference, videos_ self = Some reference ∧ (c, v) ∉ reference.
Proof.
  intros Hcall.
  apply call_raises_origin in Hcall
    as [[what [=]]|(submission & evidence & check & Hsub & Hin & He)].
  apply elem_of_applicable_checks in Hin
    as [->|[[_ ->]|[->|(rows & -> & [[Hvideos ->]|[->|[->| ->]]])]]].
  - apply submission_person_names_raises in He as (n & [=] & _).
  - apply submission_shots_raises in He
      as [[=]|(? & ? & ? & ? & _ & [=] & _)].
  - apply submission_confidence_raises in He as (? & [=] & _).
  - apply evidence_videos_raises in He
      as [[=]|(reference & ? & ? & Href & [= <- <-] & _ & Hn)].
    split; [done |]. by exists reference.
  - apply evidence_timestamps_raises in He as (? & [[=]|[=]]).
  - apply evidence_person_names_raises in He as (? & [[=]|[[=]|[=]]]).
  - apply evidence_modalities_raises in He as (? & [=] & _).
Qed.

(** ** The submission checks as a block *)

Lemma first_failure_app results1 results2 :
  first_failure (results1 ++ results2) =
  match first_failure results1 with
  | inl e => inl e
  | inr _ => first_failure results2
  end.
Proof. induction results1 as [|[e|v] results1 IH]; simpl; done. Qed.

Lemma applicable_checks_evidence `{HashOrder} self submission rows :
  applicable_checks self submission (Some rows) =
  (applicable_checks self submission None
   ++ (if truthy (videos self) then [__evidence_videos rows] else [])
   ++ [__evidence_timestamps rows;
       __evidence_person_names submission rows;
       __evidence_modalities rows])%list.
Proof.
  unfold applicable_checks. rewrite app_nil_r.
  by rewrite <- !(assoc_L (++)).
Qed.

Lemma submission_checks_pass `{HashOrder} self submission :
  first_failure
    ((λ check, outcome check self) <$> applicable_checks self submission None)
    = inr PyTrue ↔
  passes (__submission_person_names submission) self
  ∧ (truthy (shots self) = true → passes (__submission_shots submission) self)
  ∧ passes (__submission_confidence submission) self.
Proof.
  unfold applicable_checks, passes. rewrite app_nil_r.
  destruct (truthy (shots self)); csimpl.
  - destruct (outcome (__submission_person_names submission) self) as [e1|v1];
      [split; [done | by intros [[? [=]] _]] |].
    destruct (outcome (__submission_shots submission) self) as [e2|v2].
    { split; [done |]. intros (_ & Hshots & _).
      by destruct (Hshots eq_refl) as [? [=]]. }
    destruct (outcome (__submission_confidence submission) self) as [e3|v3];
      [split; [done | by intros (_ & _ & [? [=]])] |].
    split; [| done]. intros _. repeat split; by eexists.
  - destruct (outcome (__submission_person_names submission) self) as [e1|v1];
      [split; [done | by intros [[? [=]] _]] |].
    destruct (outcome (__submission_confidence submission) self) as [e3|v3];
      [split; [done | by intros (_ & _ & [? [=]])] |].
    split; [| done]. intros _. split; [by eexists |]. split; [done | by eexists].
Qed.

Lemma submission_checks_raise `{HashOrder} self submission e :
  first_failure
    ((λ check, outcome check self) <$> applicable_checks self submission None)
    = inl e →
  (∀ c v, e ≠ ValueError (InvalidVideo c v)).
Proof.
  intros Hfirst c v ->.
  apply first_failure_origin in Hfirst as (i & check & Hi & He & _).
  apply list_elem_of_lookup_2, elem_of_applicable_checks in Hi
    as [->|[[_ ->]|[->|(rows' & [=] & _)]]].
  - apply submission_person_names_raises in He as (n & [=] & _).
  - apply submission_shots_raises in He
      as [[=]|(? & ? & ? & ? & _ & [=] & _)].
  - apply submission_confidence_raises in He as (? & [=] & _).
Qed.

(** * The specification, property by property *)

(** C1.  Once the submission (and, when an evidence source is given, the
    evidence) has been read, [__call__] yields exactly the fail-fast result of
    the applicable checks taken in the fixed order: person-name alphabet, shot
    membership if configured, confidence; then, for evidence, video
    membership if configured, timestamps, person-name cross-check, modality.
    It returns [True] exactly when every applicable check passes, and it
    raises [e] exactly when some applicable check raises [e] while all the
    checks before it pass, so no later violation is looked at. *)
Theorem call_checks_in_order_fail_fast `{Pandas} `{HashOrder}
    fp_submission fp_evidence self submission evidence :
  read_submission fp_submission = inr submission →
  loads_evidence fp_evidence evidence →
  let checks := applicable_checks self submission evidence in
  let result := outcome (__call__ fp_submission fp_evidence) self in
  result = first_failure ((λ check, outcome check self) <$> checks)
  ∧ (result = inr PyTrue ↔ ∀ check, check ∈ checks → passes check self)
  ∧ (∀ v, result = inr v → v = PyTrue)
  ∧ (∀ e, result = inl e ↔
       ∃ i check, checks !! i = Some check ∧ outcome check self = inl e ∧
         ∀ j check', j < i → checks !! j = Some check' → passes check' self).
Proof.
  intros Hsub Hev checks result.
  assert (result = first_failure ((λ check, outcome check self) <$> checks))
    as Hresult.
  { unfold result, outcome at 1.
    by rewrite (call_first_failure _ _ _ submission evidence). }
  split; [done |]. rewrite Hresult. split; [| split].
  - split.
    + intros Hfirst check Hcheck.
      apply first_failure_returns in Hfirst as [_ Hall].
      apply (Hall (outcome check self)), list_elem_of_fmap. by exists check.
    + intros Hall. apply first_failure_all_return.
      intros r Hr. apply list_elem_of_fmap in Hr as (check & -> & Hcheck).
      by apply Hall.
  - intros v Hfirst. by apply first_failure_returns in Hfirst as [-> _].
  - intros e. apply first_failure_origin.
Qed.

Lemma call_checks_in_order_fail_fast_witness :
  read_submission "submission.txt" = inr demo_submission
  ∧ loads_evidence (Some "bad_video.txt") (Some bad_video_evidence)
  ∧ outcome (__call__ "submission.txt" (Some "bad_video.txt")) demo_engine =
      first_failure
        ((λ check, outcome check demo_engine)
           <$> applicable_checks demo_engine demo_submission
                 (Some bad_video_evidence)).
Proof.
  assert (read_submission "submission.txt" = inr demo_submission) as Hsub
    by reflexivity.
  assert (loads_evidence (Some "bad_video.txt") (Some bad_video_evidence))
    as Hev by (exists "bad_video.txt"; repeat split; reflexivity).
  split; [exact Hsub |]. split; [exact Hev |].
  exact (proj1 (call_checks_in_order_fail_fast
                  "submission.txt" (Some "bad_video.txt") demo_engine
                  demo_submission (Some bad_video_evidence) Hsub Hev)).
Defined.

(** The order is observable: with an invalid shot and a non-finite confidence
    in the same submission, and an unknown video in the evidence, the shot is
    what gets reported. *)
Example call_reports_first_violation_only :
  outcome (__call__ "bad_shot.txt" (Some "bad_video.txt")) demo_engine =
  inl (ValueError (InvalidShot "C1" "V1" "S2")).
Proof. vm_compute. reflexivity. Qed.

(** On a table whose person-name cells all hold text (the tables of
    [Pandas]), the alphabet check passes exactly when every person name is
    written with lowercase ASCII letters and underscores only; and when some
    name has another character, [__call__] on that submission raises
    "Invalid person name" for a name of the submission that has such a
    character (which one is up to the set order).  What the check does when
    pandas has put NaN in the column is at the end of the file. *)
Theorem person_name_alphabet `{Pandas} `{HashOrder}
    fp_submission fp_evidence self submission :
  read_submission fp_submission = inr submission →
  (outcome (__submission_person_names submission) self = inr PyTrue ↔
     ∀ r, r ∈ submission → in_alphabet (sub_person_name r))
  ∧ ((∃ r, r ∈ submission ∧ ¬ in_alphabet (sub_person_name r)) →
       ∃ name,
         outcome (__call__ fp_submission fp_evidence) self =
           inl (ValueError (InvalidPersonName name))
         ∧ (∃ r, r ∈ submission ∧ sub_person_name r = name)
         ∧ ¬ in_alphabet name).
Proof.
  intros Hsub.
  destruct (submission_person_names_cases submission self)
    as [[Hall Hrun]|(name & Hin & Hbad & Hrun)].
  - split.
    + unfold outcome. by rewrite Hrun.
    + intros (r & Hr & Hnot). destruct Hnot. by apply Hall.
  - split.
    + unfold outcome. rewrite Hrun. simpl. split; [discriminate |].
      intros Hall. destruct Hin as (r & Hr & <-). destruct Hbad. by apply Hall.
    + intros _. exists name. split; [| done].
      unfold outcome, __call__, bind, _load_submission, lift.
      by rewrite Hsub, Hrun.
Qed.

Lemma person_name_alphabet_witness :
  read_submission "bad_name.txt" = inr bad_name_submission
  ∧ ∃ name,
      outcome (__call__ "bad_name.txt" (Some "evidence.txt")) demo_engine =
        inl (ValueError (InvalidPersonName name))
      ∧ (∃ r, r ∈ bad_name_submission ∧ sub_person_name r = name)
      ∧ ¬ in_alphabet name.
Proof.
  assert (read_submission "bad_name.txt" = inr bad_name_submission) as Hsub
    by reflexivity.
  split; [exact Hsub |].
  apply (proj2 (person_name_alphabet "bad_name.txt" (Some "evidence.txt")
                  demo_engine bad_name_submission Hsub)).
  exists (sub_row "C1" "V1" "S1" "Jean-Paul" finite_one). split.
  - apply elem_of_cons. right. apply elem_of_cons. by left.
  - intros Hall. specialize (Hall "J"%char). simpl in Hall.
    destruct Hall as [[Hlo _]|Heq]; [apply elem_of_cons; by left | | done].
    vm_compute in Hlo. lia.
Defined.

Example jean_paul_rejected :
  outcome (__submission_person_names bad_name_submission) open_engine =
  inl (ValueError (InvalidPersonName "Jean-Paul")).
Proof. vm_compute. reflexivity. Qed.

(** C3.  On an engine constructed with a shot list, [self.shots_] is the set
    of triples of that list, and the shot membership check raises exactly
    when some triple of the submission is not in it; what it raises is
    "Invalid shot" for a triple of the submission that is not in the set, and
    when every triple is a member it returns [True]. *)
Theorem shot_membership `{Pandas} `{HashOrder} path videos0 self submission :
  truthy (Some path) = true →
  new (Some path) videos0 = inr self →
  ∃ reference,
    shots_ self = Some reference
    ∧ (∃ rows, read_shots path = inr rows ∧
         ∀ c v s, (c, v, s) ∈ reference ↔
           ∃ r, r ∈ rows ∧
             (shot_corpus_id r, shot_video_id r, shot_shot_id r) = (c, v, s))
    ∧ (fails (__submission_shots submission) self ↔
         ∃ r, r ∈ submission ∧ shot_of r ∉ reference)
    ∧ (∀ e, outcome (__submission_shots submission) self = inl e →
         ∃ c v s, e = ValueError (InvalidShot c v s)
           ∧ (∃ r, r ∈ submission ∧ shot_of r = (c, v, s))
           ∧ (c, v, s) ∉ reference)
    ∧ ((∀ r, r ∈ submission → shot_of r ∈ reference) →
         outcome (__submission_shots submission) self = inr PyTrue).
Proof.
  intros Htruthy Hnew.
  apply new_attributes in Hnew as (_ & _ & Hshots & _).
  rewrite Htruthy in Hshots.
  destruct Hshots as (path' & rows & [= <-] & Hread & Href).
  eexists. split; [exact Href |]. split.
  { exists rows. split; [done |]. intros c v s.
    rewrite elem_of_list_to_set, list_elem_of_fmap.
    split; [intros (r & -> & Hr) | intros (r & Hr & <-)]; by exists r. }
  unfold fails, outcome.
  destruct (submission_shots_cases submission self _ Href)
    as [[Hall ->]|(c & v & s & Hin & Hbad & ->)]; simpl.
  - split; [| split; [discriminate | done]]. split.
    + by intros [e ?].
    + intros (r & Hr & Hnot). destruct Hnot. by apply Hall.
  - split; [| split].
    + split; [| by eexists]. intros _.
      destruct Hin as (r & Hr & Heq). exists r. by rewrite Heq.
    + intros e [= <-]. by exists c, v, s.
    + intros Hall. destruct Hin as (r & Hr & Heq). destruct Hbad.
      rewrite <- Heq. by apply Hall.
Qed.

Lemma shot_membership_witness :
  truthy (Some "shots.lst") = true
  ∧ new (Some "shots.lst") (Some "videos.lst") = inr demo_engine
  ∧ ∃ reference,
      shots_ demo_engine = Some reference
      ∧ (fails (__submission_shots bad_shot_submission) demo_engine ↔
           ∃ r, r ∈ bad_shot_submission ∧ shot_of r ∉ reference).
Proof.
  assert (truthy (Some "shots.lst") = true) as Htruthy by reflexivity.
  assert (new (Some "shots.lst") (Some "videos.lst") = inr demo_engine) as Hnew
    by (vm_compute; reflexivity).
  split; [exact Htruthy |]. split; [exact Hnew |].
  destruct (shot_membership "shots.lst" (Some "videos.lst") demo_engine
              bad_shot_submission Htruthy Hnew)
    as (reference & Href & _ & Hiff & _).
  exists reference. by split.
Defined.

Example unknown_shot_reported :
  outcome (__submission_shots bad_shot_submission) demo_engine =
  inl (ValueError (InvalidShot "C1" "V1" "S2")).
Proof. vm_compute. reflexivity. Qed.

Example known_shot_accepted :
  outcome (__submission_shots demo_submission) demo_engine = inr PyTrue.
Proof. vm_compute. reflexivity. Qed.

(** C4.  The confidence check raises exactly when some row of the submission
    has a confidence that is NaN or an infinity; what it raises is "Incorrect
    confidence" with the 1-indexed line of the first such row in file order;
    and a submission whose confidences are all finite returns [True]. *)
Theorem confidence_finiteness (self : Validation) (submission : Submission) :
  let result := outcome (__submission_confidence submission) self in
  (fails (__submission_confidence submission) self ↔
     ∃ r, r ∈ submission ∧ non_finite (sub_confidence r))
  ∧ (∀ e, result = inl e →
       ∃ i, e = ValueError (IncorrectConfidence (i + 1))
         ∧ first_row (λ r, non_finite (sub_confidence r)) submission i)
  ∧ (∀ i, first_row (λ r, non_finite (sub_confidence r)) submission i →
       result = inl (ValueError (IncorrectConfidence (i + 1))))
  ∧ ((∀ r, r ∈ submission → ¬ non_finite (sub_confidence r)) →
       result = inr PyTrue).
Proof.
  unfold fails, outcome.
  destruct (submission_confidence_cases submission self)
    as [[Hall ->]|(i & Hi & ->)]; simpl.
  - assert (∀ r, r ∈ submission → ¬ non_finite (sub_confidence r)) as Hfin.
    { intros r Hr. by apply isfinite_true, Hall. }
    repeat split; try done.
    + by intros [e ?].
    + intros (r & Hr & Hnot). by destruct (Hfin r Hr).
    + intros j [(r & Hr & Hnot) _]. destruct (Hfin r); [| done].
      apply list_elem_of_lookup. by exists j.
  - repeat split.
    + intros _. destruct Hi as [(r & Hr & Hnot) _]. exists r. split; [| done].
      apply list_elem_of_lookup. by exists i.
    + by eexists.
    + intros e [= <-]. by exists i.
    + intros j Hj. by rewrite (first_row_unique _ _ _ _ Hj Hi).
    + intros Hall. destruct Hi as [(r & Hr & Hnot) _]. destruct (Hall r); [| done].
      apply list_elem_of_lookup. by exists i.
Qed.

Example confidence_nan_at_line_3 :
  outcome (__submission_confidence
             [ sub_row "C1" "V1" "S1" "alice" finite_one;
               sub_row "C1" "V1" "S2" "alice" zero;
               sub_row "C1" "V1" "S3" "alice" S754_nan;
               sub_row "C1" "V1" "S4" "alice" (S754_infinity false) ])
          open_engine =
  inl (ValueError (IncorrectConfidence 3)).
Proof. reflexivity. Qed.

Example confidence_infinity_at_line_3 :
  outcome (__submission_confidence
             [ sub_row "C1" "V1" "S1" "alice" finite_one;
               sub_row "C1" "V1" "S2" "alice" minus_one;
               sub_row "C1" "V1" "S3" "alice" (S754_infinity true) ])
          open_engine =
  inl (ValueError (IncorrectConfidence 3)).
Proof. reflexivity. Qed.

(** C5.  The timestamp check first looks for a timestamp that is NaN or an
    infinity and raises "Incorrect timestamp" with the 1-indexed line of the
    first such row; only when every timestamp is finite does it look for a
    timestamp below zero and raise "Negative timestamp" with the line of the
    first such row; it returns [True] exactly when every timestamp is finite
    and at least zero, and a zero of either sign is such a timestamp. *)
Theorem timestamp_validity (self : Validation) (evidence : Evidence) :
  let result := outcome (__evidence_timestamps evidence) self in
  (∀ i, first_row (λ r, non_finite (ev_timestamp r)) evidence i →
     result = inl (ValueError (IncorrectTimestamp (i + 1))))
  ∧ (∀ i, (∀ r, r ∈ evidence → ¬ non_finite (ev_timestamp r)) →
       first_row (λ r, negative (ev_timestamp r)) evidence i →
       result = inl (ValueError (NegativeTimestamp (i + 1))))
  ∧ (result = inr PyTrue ↔
       ∀ r, r ∈ evidence →
         ¬ non_finite (ev_timestamp r) ∧ non_negative (ev_timestamp r))
  ∧ (∀ e, result = inl e →
       ∃ i, (e = ValueError (IncorrectTimestamp (i + 1))
             ∧ first_row (λ r, non_finite (ev_timestamp r)) evidence i)
          ∨ (e = ValueError (NegativeTimestamp (i + 1))
             ∧ (∀ r, r ∈ evidence → ¬ non_finite (ev_timestamp r))
             ∧ first_row (λ r, negative (ev_timestamp r)) evidence i))
  ∧ (∀ s, ¬ non_finite (S754_zero s) ∧ non_negative (S754_zero s)).
Proof.
  unfold outcome.
  assert (∀ i P, first_row P evidence i → ∃ r, r ∈ evidence ∧ P r) as Hmember.
  { intros i P [(r & Hr & HP) _]. exists r. split; [| done].
    apply list_elem_of_lookup. by exists i. }
  assert (∀ s, ¬ non_finite (S754_zero s) ∧ non_negative (S754_zero s)) as Hzero.
  { intros s. split; [| done]. intros [?|[? ?]]; discriminate. }
  destruct (evidence_timestamps_cases evidence self)
    as [[Hall ->]|[(i & Hi & ->)|(i & Hfin & Hi & ->)]]; simpl.
  - assert (∀ r, r ∈ evidence →
              ¬ non_finite (ev_timestamp r) ∧ non_negative (ev_timestamp r))
      as Hgood.
    { intros r Hr. destruct (Hall r Hr) as [Hfin Hpos].
      split; [by apply isfinite_true | by apply finite_not_negative]. }
    split; [| split; [| split; [| split]]]; [| | done | done | done].
    + intros j Hj. apply Hmember in Hj as (r & Hr & Hnot).
      by destruct (Hgood r Hr).
    + intros j _ Hj. apply Hmember in Hj as (r & Hr & Hneg).
      by destruct (Hall r Hr).
  - split; [| split; [| split; [| split]]]; [| | | | done].
    + intros j Hj. by rewrite (first_row_unique _ _ _ _ Hj Hi).
    + intros j Hfin _. apply Hmember in Hi as (r & Hr & Hnot).
      by destruct (Hfin r Hr).
    + split; [discriminate |].
      intros Hall. apply Hmember in Hi as (r & Hr & Hnot).
      by destruct (Hall r Hr).
    + intros e [= <-]. exists i. by left.
  - assert (∀ r, r ∈ evidence → ¬ non_finite (ev_timestamp r)) as Hfin'.
    { intros r Hr. by apply isfinite_true, Hfin. }
    split; [| split; [| split; [| split]]]; [| | | | done].
    + intros j Hj. apply Hmember in Hj as (r & Hr & Hnot).
      by destruct (Hfin' r Hr).
    + intros j _ Hj. by rewrite (first_row_unique _ _ _ _ Hj Hi).
    + split; [discriminate |].
      intros Hall. apply Hmember in Hi as (r & Hr & Hneg).
      destruct (Hall r Hr) as [_ Hpos].
      apply finite_not_negative in Hpos; [done | by apply Hfin].
    + intros e [= <-]. exists i. right.
      split; [done | split; [exact Hfin' | exact Hi]].
Qed.

Example timestamp_minus_one_is_negative :
  outcome (__evidence_timestamps
             [ ev_row "alice" "C1" "V1" "written" zero;
               ev_row "bob" "C1" "V1" "written" minus_one ])
          open_engine =
  inl (ValueError (NegativeTimestamp 2)).
Proof. reflexivity. Qed.

(** Finiteness is looked at over the whole file before negativity is: a
    negative timestamp on line 1 does not hide a NaN on line 2, and minus
    infinity is reported as not finite. *)
Example timestamp_nan_before_negative :
  outcome (__evidence_timestamps
             [ ev_row "alice" "C1" "V1" "written" minus_one;
               ev_row "bob" "C1" "V1" "written" S754_nan ])
          open_engine =
  inl (ValueError (IncorrectTimestamp 2)).
Proof. reflexivity. Qed.

Example timestamp_minus_infinity_not_finite :
  outcome (__evidence_timestamps
             [ ev_row "alice" "C1" "V1" "written" (S754_infinity true) ])
          open_engine =
  inl (ValueError (IncorrectTimestamp 1)).
Proof. reflexivity. Qed.

(** C6.  The cross-check looks at three things in order.  If some name is on
    more than one evidence row it raises "Duplicate person name" for a name
    that is on two rows.  Otherwise, if some evidence name is not a name of
    the submission it raises "Extra person name" for such a name.  Otherwise,
    if some name of the submission is not an evidence name it raises "Missing
    person name" for such a name.  It passes exactly when the evidence names
    are pairwise distinct and are the same names as those of the
    submission. *)
Theorem person_name_cross_check `{HashOrder} (self : Validation)
    (submission : Submission) (evidence : Evidence) :
  let sub_names := sub_person_name <$> submission in
  let ev_names := ev_person_name <$> evidence in
  let result := outcome (__evidence_person_names submission evidence) self in
  (¬ NoDup ev_names →
     ∃ n, result = inl (ValueError (DuplicatePersonName n))
          ∧ occurs_twice n ev_names)
  ∧ (NoDup ev_names → (∃ n, n ∈ ev_names ∧ n ∉ sub_names) →
       ∃ n, result = inl (ValueError (ExtraPersonName n))
            ∧ n ∈ ev_names ∧ n ∉ sub_names)
  ∧ (NoDup ev_names → (∀ n, n ∈ ev_names → n ∈ sub_names) →
       (∃ n, n ∈ sub_names ∧ n ∉ ev_names) →
       ∃ n, result = inl (ValueError (MissingPersonName n))
            ∧ n ∈ sub_names ∧ n ∉ ev_names)
  ∧ (passes (__evidence_person_names submission evidence) self ↔
       NoDup ev_names ∧ ∀ n, n ∈ ev_names ↔ n ∈ sub_names)
  ∧ (passes (__evidence_person_names submission evidence) self →
       result = inr PyTrue).
Proof.
  intros sub_names ev_names result.
  subst sub_names ev_names result. unfold passes, outcome.
  pose proof (evidence_person_names_cases submission evidence self) as Hcases.
  cbv zeta in Hcases.
  destruct Hcases
    as [(Hnd & Hsame & ->)
       |[(n & Htwice & ->)
        |[(n & Hnd & Hev & Hsub & ->)
         |(n & Hnd & Hincl & Hsub & Hev & ->)]]]; simpl.
  - split; [done |]. split; [| split; [| split; [| done]]].
    + intros _ (n & Hn & Hnot). destruct Hnot. by apply Hsame.
    + intros _ _ (n & Hn & Hnot). destruct Hnot. by apply Hsame.
    + split; [done | by eexists].
  - apply occurs_twice_NoDup in Htwice as Hnot.
    split; [| split; [done | split; [done | split]]].
    + intros _. by exists n.
    + split; [by intros [? ?] | by intros [? _]].
    + by intros [? ?].
  - split; [done |]. split; [| split; [| split]].
    + intros _ _. by exists n.
    + intros _ Hincl. destruct Hsub. by apply Hincl.
    + split; [by intros [? ?] |]. intros [_ Hsame]. destruct Hsub. by apply Hsame.
    + by intros [? ?].
  - split; [done |]. split; [| split; [| split]].
    + intros _ (k & Hk & Hnot). destruct Hnot. by apply Hincl.
    + intros _ _ _. by exists n.
    + split; [by intros [? ?] |]. intros [_ Hsame]. destruct Hev. by apply Hsame.
    + by intros [? ?].
Qed.

Lemma person_name_cross_check_witness :
  let ev_names := ev_person_name <$> [ ev_row "alice" "C1" "V1" "written" zero ] in
  let sub_names := sub_person_name <$> demo_submission in
  NoDup ev_names
  ∧ (∀ n, n ∈ ev_names → n ∈ sub_names)
  ∧ (∃ n, n ∈ sub_names ∧ n ∉ ev_names)
  ∧ ∃ n, outcome (__evidence_person_names demo_submission
                    [ ev_row "alice" "C1" "V1" "written" zero ]) open_engine =
           inl (ValueError (MissingPersonName n))
         ∧ n ∈ sub_names ∧ n ∉ ev_names.
Proof.
  intros ev_names sub_names.
  assert (NoDup ev_names) as Hnd by (apply NoDup_singleton).
  assert (∀ n, n ∈ ev_names → n ∈ sub_names) as Hincl.
  { intros n Hn. apply list_elem_of_singleton in Hn as ->.
    apply elem_of_cons. by left. }
  assert (∃ n, n ∈ sub_names ∧ n ∉ ev_names) as Hmissing.
  { exists "bob". split.
    - apply elem_of_cons. right. apply elem_of_cons. by left.
    - intros Hin. by apply list_elem_of_singleton in Hin. }
  split; [exact Hnd |]. split; [exact Hincl |]. split; [exact Hmissing |].
  destruct (person_name_cross_check open_engine demo_submission
              [ ev_row "alice" "C1" "V1" "written" zero ])
    as (_ & _ & Hc & _).
  exact (Hc Hnd Hincl Hmissing).
Defined.

Example cross_check_same_names :
  outcome (__evidence_person_names demo_submission demo_evidence) open_engine =
  inr PyTrue.
Proof. vm_compute. reflexivity. Qed.

Example cross_check_missing_bob :
  outcome (__evidence_person_names demo_submission
             [ ev_row "alice" "C1" "V1" "written" zero ]) open_engine =
  inl (ValueError (MissingPersonName "bob")).
Proof. vm_compute. reflexivity. Qed.

Example cross_check_extra_carol :
  outcome (__evidence_person_names demo_submission
             (demo_evidence ++ [ ev_row "carol" "C1" "V1" "written" zero ])%list)
          open_engine =
  inl (ValueError (ExtraPersonName "carol")).
Proof. vm_compute. reflexivity. Qed.

Example cross_check_duplicate_alice :
  outcome (__evidence_person_names demo_submission
             (demo_evidence ++ [ ev_row "alice" "C1" "V1" "pronounced" zero ])%list)
          open_engine =
  inl (ValueError (DuplicatePersonName "alice")).
Proof. vm_compute. reflexivity. Qed.

(** Duplicates are looked at before extra names: evidence with a repeated
    name that the submission does not even have reports the duplicate. *)
Example cross_check_duplicate_before_extra :
  outcome (__evidence_person_names demo_submission
             [ ev_row "carol" "C1" "V1" "written" zero;
               ev_row "carol" "C1" "V1" "written" zero ])
          open_engine =
  inl (ValueError (DuplicatePersonName "carol")).
Proof. vm_compute. reflexivity. Qed.

(** C7.  The modality check passes exactly when the set of distinct modality
    values of the evidence is a subset of {"written", "pronounced"};
    otherwise it raises "Incorrect modality" for a modality value of the
    evidence that is neither. *)
Theorem modality_subset `{HashOrder} (self : Validation) (evidence : Evidence) :
  let modalities : gset string := list_to_set (ev_modality <$> evidence) in
  let allowed : gset string := {[ "written"; "pronounced" ]} in
  let result := outcome (__evidence_modalities evidence) self in
  (passes (__evidence_modalities evidence) self ↔ modalities ⊆ allowed)
  ∧ (fails (__evidence_modalities evidence) self ↔ ¬ modalities ⊆ allowed)
  ∧ (∀ e, result = inl e →
       ∃ m, e = ValueError (IncorrectModality m)
            ∧ m ∈ modalities ∧ (m ∉ allowed)
            ∧ m ≠ "written" ∧ m ≠ "pronounced").
Proof.
  intros modalities allowed result.
  assert (∀ m, m ∈ modalities ↔ ∃ r, r ∈ evidence ∧ ev_modality r = m) as Hmod.
  { intros m. unfold modalities. rewrite elem_of_list_to_set, list_elem_of_fmap.
    split; [intros (r & -> & Hr) | intros (r & Hr & <-)]; by exists r. }
  unfold passes, fails, result, outcome.
  destruct (evidence_modalities_cases evidence self)
    as [[Hall ->]|(m & Hin & Hbad & ->)]; simpl.
  - assert (modalities ⊆ allowed) as Hsub.
    { intros m Hm. apply Hmod in Hm as (r & Hr & <-). by apply Hall. }
    split; [| split; [| done]].
    + split; [done | by eexists].
    + split; [by intros [? ?] | done].
  - assert (¬ modalities ⊆ allowed) as Hsub.
    { intros Hsub. apply Hbad, Hsub, Hmod, Hin. }
    split; [| split].
    + split; [by intros [? ?] | done].
    + split; [done | by eexists].
    + intros e [= <-]. exists m. split; [done |]. split; [by apply Hmod |].
      split; [done |]. split; intros ->; apply Hbad, elem_of_MODALITIES; auto.
Qed.

Example modalities_written_pronounced :
  outcome (__evidence_modalities demo_evidence) open_engine = inr PyNone.
Proof. vm_compute. reflexivity. Qed.

Example modalities_spoken_reported :
  outcome (__evidence_modalities
             [ ev_row "alice" "C1" "V1" "written" zero;
               ev_row "bob" "C1" "V1" "spoken" zero ]) open_engine =
  inl (ValueError (IncorrectModality "spoken")).
Proof. vm_compute. reflexivity. Qed.

(** C8 does not hold as stated.  On an engine built with a video list, a call
    with evidence whose every video is in the Reference Video Set still
    fails, because a person name of the submission is invalid: "the call
    fails if and only if some pair of the evidence is absent from the set"
    is false there. *)
Lemma call_fails_with_every_video_known :
  new (Some "shots.lst") (Some "videos.lst") = inr demo_engine
  ∧ videos_ demo_engine = Some {[ ("C1", "V1") ]}
  ∧ read_submission "bad_name.txt" = inr bad_name_submission
  ∧ loads_evidence (Some "evidence.txt") (Some demo_evidence)
  ∧ ¬ (fails (__call__ "bad_name.txt" (Some "evidence.txt")) demo_engine ↔
       ∃ r, r ∈ demo_evidence ∧ video_of r ∉ ({[ ("C1", "V1") ]} : gset Video)).
Proof.
  split; [vm_compute; reflexivity |]. split; [reflexivity |].
  split; [reflexivity |].
  split; [exists "evidence.txt"; repeat split; reflexivity |].
  intros [Hfails _].
  destruct Hfails as (r & Hr & Hnot).
  - exists (ValueError (InvalidPersonName "Jean-Paul")). vm_compute. reflexivity.
  - apply Hnot. apply elem_of_singleton.
    repeat (apply elem_of_cons in Hr as [->|Hr]; [reflexivity |]).
    by apply elem_of_nil in Hr.
Qed.

(** C8, amended.  On an engine built without a shot list no call raises
    "Invalid shot", and on one built without a video list no call raises
    "Invalid video"; in particular a call without evidence on an engine
    without a shot list returns [True] exactly when the names are in the
    alphabet and the confidences finite, whatever the shot triples.  On an
    engine with a Reference Video Set and with evidence supplied, the video
    membership check fails exactly when some pair of the evidence is not in
    the set, and the call raises "Invalid video" exactly when moreover the
    three submission checks pass; the pair it reports is a pair of the
    evidence that is not in the set. *)
Theorem reference_restrictions `{Pandas} `{HashOrder}
    fp_submission fp_evidence self submission evidence :
  read_submission fp_submission = inr submission →
  loads_evidence fp_evidence evidence →
  let result := outcome (__call__ fp_submission fp_evidence) self in
  (truthy (shots self) = false →
     (∀ c v s, result ≠ inl (ValueError (InvalidShot c v s)))
     ∧ (evidence = None →
          (result = inr PyTrue ↔
             ∀ r, r ∈ submission →
               in_alphabet (sub_person_name r)
               ∧ ¬ non_finite (sub_confidence r))))
  ∧ (truthy (videos self) = false →
       ∀ c v, result ≠ inl (ValueError (InvalidVideo c v)))
  ∧ (truthy (videos self) = true →
       ∀ reference rows,
         videos_ self = Some reference → evidence = Some rows →
         (fails (__evidence_videos rows) self ↔
            ∃ r, r ∈ rows ∧ video_of r ∉ reference)
         ∧ ((∃ c v, result = inl (ValueError (InvalidVideo c v))) ↔
              passes (__submission_person_names submission) self
              ∧ (truthy (shots self) = true →
                   passes (__submission_shots submission) self)
              ∧ passes (__submission_confidence submission) self
              ∧ ∃ r, r ∈ rows ∧ video_of r ∉ reference)
         ∧ (∀ c v, result = inl (ValueError (InvalidVideo c v)) →
              (∃ r, r ∈ rows ∧ video_of r = (c, v)) ∧ (c, v) ∉ reference)).
Proof.
  intros Hsub Hev result.
  assert (result =
          first_failure
            ((λ check, outcome check self)
               <$> applicable_checks self submission evidence)) as Hresult.
  { unfold result, outcome at 1.
    by rewrite (call_first_failure _ _ _ submission evidence). }
  split; [| split].
  - intros Hshots. split.
    + intros c v s Hcall.
      apply call_raises_invalid_shot in Hcall as [Htrue _]. congruence.
    + intros ->. rewrite Hresult. unfold applicable_checks.
      rewrite Hshots. csimpl. unfold outcome.
      destruct (submission_person_names_cases submission self)
        as [[Hnames ->]|(name & (r & Hr & <-) & Hbad & ->)]; simpl.
      * destruct (submission_confidence_cases submission self)
          as [[Hconf ->]|(i & [(r & Hr & Hnot) _] & ->)]; simpl.
        -- split; [| done]. intros _ r Hr.
           split; [by apply Hnames | by apply isfinite_true, Hconf].
        -- split; [discriminate |]. intros Hall.
           apply list_elem_of_lookup_2 in Hr. by destruct (Hall r Hr).
      * split; [discriminate |]. intros Hall. by destruct (Hall r Hr).
  - intros Hvideos c v Hcall.
    apply call_raises_invalid_video in Hcall as [Htrue _]. congruence.
  - intros Hvideos reference rows Href ->.
    assert (fails (__evidence_videos rows) self ↔
            ∃ r, r ∈ rows ∧ video_of r ∉ reference) as Hcheck.
    { unfold fails, outcome.
      destruct (evidence_videos_cases rows self reference Href)
        as [[Hall ->]|(c & v & (r & Hr & Heq) & Hbad & ->)]; simpl.
      - split; [by intros [? ?] |]. intros (r & Hr & Hnot).
        destruct Hnot. by apply Hall.
      - split; [| by eexists]. intros _. exists r. by rewrite Heq. }
    split; [exact Hcheck |].
    assert (∀ c v, result = inl (ValueError (InvalidVideo c v)) →
              (∃ r, r ∈ rows ∧ video_of r = (c, v)) ∧ (c, v) ∉ reference)
      as Hreport.
    { intros c v Hcall. rewrite Hresult in Hcall.
      apply first_failure_origin in Hcall as (i & check & Hi & He & _).
      apply list_elem_of_lookup_2, elem_of_applicable_checks in Hi
        as [->|[[_ ->]|[->|(rows' & [= <-] & [[_ ->]|[->|[->| ->]]])]]].
      - apply submission_person_names_raises in He as (n & [=] & _).
      - apply submission_shots_raises in He
          as [[=]|(? & ? & ? & ? & _ & [=] & _)].
      - apply submission_confidence_raises in He as (? & [=] & _).
      - apply evidence_videos_raises in He
          as [[=]|(reference' & ? & ? & Href' & [= <- <-] & Hr & Hn)].
        rewrite Href in Href'. by injection Href' as <-.
      - apply evidence_timestamps_raises in He as (? & [[=]|[=]]).
      - apply evidence_person_names_raises in He as (? & [[=]|[[=]|[=]]]).
      - apply evidence_modalities_raises in He as (? & [=] & _). }
    split; [| exact Hreport].
    assert (result =
            match first_failure
                    ((λ check, outcome check self)
                       <$> applicable_checks self submission None) with
            | inl e => inl e
            | inr _ =>
                match outcome (__evidence_videos rows) self with
                | inl e => inl e
                | inr _ =>
                    first_failure
                      ((λ check, outcome check self)
                         <$> [__evidence_timestamps rows;
                              __evidence_person_names submission rows;
                              __evidence_modalities rows])
                end
            end) as Hblocks.
    { rewrite Hresult, applicable_checks_evidence, Hvideos, fmap_app.
      by rewrite first_failure_app. }
    clear Hresult. split.
    + intros (c & v & Hcall).
      destruct (Hreport c v Hcall) as [(r & Hr & Heq) Hnot].
      rewrite Hblocks in Hcall. clear Hblocks.
      destruct (first_failure
                  ((λ check, outcome check self)
                     <$> applicable_checks self submission None))
        as [e|[]] eqn:Hfirst.
      * injection Hcall as ->. by destruct (submission_checks_raise _ _ _ Hfirst c v).
      * apply submission_checks_pass in Hfirst as (Hnames & Hshots & Hconf).
        repeat split; [done | done | done |]. exists r. by rewrite Heq.
      * by apply first_failure_returns in Hfirst as [[=] _].
    + intros (Hnames & Hshots & Hconf & Habsent).
      assert (first_failure
                ((λ check, outcome check self)
                   <$> applicable_checks self submission None) = inr PyTrue)
        as Hpass by (by apply submission_checks_pass).
      rewrite Hblocks, Hpass. unfold outcome.
      destruct (evidence_videos_cases rows self reference Href)
        as [[Hall _]|(c & v & _ & _ & ->)].
      * destruct Habsent as (r & Hr & Hnot). destruct Hnot. by apply Hall.
      * by exists c, v.
Qed.

Lemma reference_restrictions_witness :
  read_submission "submission.txt" = inr demo_submission
  ∧ loads_evidence (Some "bad_video.txt") (Some bad_video_evidence)
  ∧ (fails (__evidence_videos bad_video_evidence) demo_engine ↔
       ∃ r, r ∈ bad_video_evidence
            ∧ video_of r ∉ ({[ ("C1", "V1") ]} : gset Video)).
Proof.
  assert (read_submission "submission.txt" = inr demo_submission) as Hsub
    by reflexivity.
  assert (loads_evidence (Some "bad_video.txt") (Some bad_video_evidence))
    as Hev by (exists "bad_video.txt"; repeat split; reflexivity).
  split; [exact Hsub |]. split; [exact Hev |].
  destruct (reference_restrictions "submission.txt" (Some "bad_video.txt")
              demo_engine demo_submission (Some bad_video_evidence) Hsub Hev)
    as (_ & _ & Hvideos).
  exact (proj1 (Hvideos eq_refl {[ ("C1", "V1") ]} bad_video_evidence
                  eq_refl eq_refl)).
Defined.

(** Without reference lists nothing about shots or videos is looked at. *)
Example open_engine_accepts_any_shot_and_video :
  outcome (__call__ "submission.txt" (Some "bad_video.txt")) open_engine =
  inr PyTrue.
Proof. vm_compute. reflexivity. Qed.

Example unknown_video_reported :
  outcome (__call__ "submission.txt" (Some "bad_video.txt")) demo_engine =
  inl (ValueError (InvalidVideo "C1" "V9")).
Proof. vm_compute. reflexivity. Qed.

(** ** The engine across calls *)

Lemma calls_read_only `{Pandas} `{HashOrder} inputs self :
  (calls inputs self).1 = self.
Proof.
  revert self. induction inputs as [|[fp_submission fp_evidence] inputs IH];
    intros self; simpl; [done |].
  rewrite (read_only_run (__call__ fp_submission fp_evidence) self)
    by apply read_only_call.
  specialize (IH self). by destruct (calls inputs self).
Qed.

(** C9.  Whatever calls were made on an engine before, and whether they
    returned or raised, the engine afterwards has the Reference Shot Set and
    the Reference Video Set it had before (indeed every attribute is as it
    was), so a call made after them gives what the same call gives on the
    engine as constructed. *)
Theorem reference_sets_unchanged `{Pandas} `{HashOrder}
    (inputs : list (string * option string)) (self : Validation)
    (fp_submission : string) (fp_evidence : option string) :
  let self' := (calls inputs self).1 in
  shots_ self' = shots_ self
  ∧ videos_ self' = videos_ self
  ∧ self' = self
  ∧ after (__call__ fp_submission fp_evidence) self' = self'
  ∧ outcome (__call__ fp_submission fp_evidence) self' =
    outcome (__call__ fp_submission fp_evidence) self.
Proof.
  intros self'. assert (self' = self) as -> by apply calls_read_only.
  repeat split. apply read_only_call.
Qed.

(** C10.  The empty name is in the alphabet: its character set is a subset
    of the allowed characters, so neither the alphabet check nor a call ever
    raises "Invalid person name" for the empty name, and a submission whose
    names are all empty passes the check. *)
Theorem empty_person_name_allowed `{Pandas} `{HashOrder}
    (fp_submission : string) (fp_evidence : option string)
    (self : Validation) (submission : Submission) :
  chars "" ⊆ ALLOWED_CHARACTERS
  ∧ in_alphabet ""
  ∧ outcome (__submission_person_names submission) self ≠
      inl (ValueError (InvalidPersonName ""))
  ∧ outcome (__call__ fp_submission fp_evidence) self ≠
      inl (ValueError (InvalidPersonName ""))
  ∧ ((∀ r, r ∈ submission → sub_person_name r = "") →
       outcome (__submission_person_names submission) self = inr PyTrue).
Proof.
  assert (in_alphabet "") as Hempty.
  { intros c Hc. by apply elem_of_nil in Hc. }
  split; [by apply chars_allowed |]. split; [done |]. split; [| split].
  - intros Hraise.
    apply submission_person_names_raises in Hraise as (name & [= <-] & _ & Hbad).
    by destruct Hbad.
  - intros Hraise.
    apply call_raises_invalid_person_name in Hraise as (? & _ & _ & Hbad).
    by destruct Hbad.
  - intros Hall. unfold outcome.
    destruct (submission_person_names_cases submission self)
      as [[_ ->]|(name & (r & Hr & <-) & Hbad & _)]; [done |].
    destruct Hbad. by rewrite (Hall r Hr).
Qed.

Example empty_name_passes :
  outcome (__submission_person_names
             [ sub_row "C1" "V1" "S1" "" finite_one ]) open_engine =
  inr PyTrue.
Proof. vm_compute. reflexivity. Qed.

(** * Further properties of the engine *)

(** ** When each check passes *)

Lemma submission_person_names_passes `{HashOrder} submission self :
  passes (__submission_person_names submission) self ↔
  ∀ r, r ∈ submission → in_alphabet (sub_person_name r).
Proof.
  unfold passes, outcome.
  destruct (submission_person_names_cases submission self)
    as [[Hall ->]|(name & (r & Hr & <-) & Hbad & ->)]; simpl.
  - split; [done | by eexists].
  - split; [by intros [? ?] |]. intros Hall. destruct Hbad. by apply Hall.
Qed.

Lemma submission_shots_passes `{HashOrder} submission self :
  passes (__submission_shots submission) self ↔
  ∃ reference, shots_ self = Some reference ∧
    ∀ r, r ∈ submission → shot_of r ∈ reference.
Proof.
  unfold passes, outcome. destruct (shots_ self) as [reference|] eqn:Href.
  - destruct (submission_shots_cases submission self reference Href)
      as [[Hall ->]|(c & v & s & (r & Hr & Heq) & Hbad & ->)]; simpl.
    + split; [| by eexists]. intros _. by exists reference.
    + split; [by intros [? ?] |]. intros (reference' & [= <-] & Hall).
      destruct Hbad. rewrite <- Heq. by apply Hall.
  - rewrite submission_shots_unset by done. simpl.
    split; [by intros [? ?] | by intros (? & ? & _)].
Qed.

Lemma submission_confidence_passes submission self :
  passes (__submission_confidence submission) self ↔
  ∀ r, r ∈ submission → ¬ non_finite (sub_confidence r).
Proof.
  unfold passes, outcome.
  destruct (submission_confidence_cases submission self)
    as [[Hall ->]|(i & [(r & Hr & Hnot) _] & ->)]; simpl.
  - split; [| by eexists]. intros _ r Hr. by apply isfinite_true, Hall.
  - split; [by intros [? ?] |]. intros Hall.
    apply list_elem_of_lookup_2 in Hr. by destruct (Hall r Hr).
Qed.

Lemma evidence_videos_passes `{HashOrder} evidence self :
  passes (__evidence_videos evidence) self ↔
  ∃ reference, videos_ self = Some reference ∧
    ∀ r, r ∈ evidence → video_of r ∈ reference.
Proof.
  unfold passes, outcome. destruct (videos_ self) as [reference|] eqn:Href.
  - destruct (evidence_videos_cases evidence self reference Href)
      as [[Hall ->]|(c & v & (r & Hr & Heq) & Hbad & ->)]; simpl.
    + split; [| by eexists]. intros _. by exists reference.
    + split; [by intros [? ?] |]. intros (reference' & [= <-] & Hall).
      destruct Hbad. rewrite <- Heq. by apply Hall.
  - rewrite evidence_videos_unset by done. simpl.
    split; [by intros [? ?] | by intros (? & ? & _)].
Qed.

Lemma evidence_timestamps_passes evidence self :
  passes (__evidence_timestamps evidence) self ↔
  ∀ r, r ∈ evidence →
    ¬ non_finite (ev_timestamp r) ∧ non_negative (ev_timestamp r).
Proof.
  unfold passes, outcome.
  destruct (evidence_timestamps_cases evidence self)
    as [[Hall ->]
       |[(i & [(r & Hr & Hnot) _] & ->)
        |(i & Hfin & [(r & Hr & Hneg) _] & ->)]]; simpl.
  - split; [| by eexists]. intros _ r Hr. destruct (Hall r Hr) as [Hfin Hpos].
    split; [by apply isfinite_true | by apply finite_not_negative].
  - split; [by intros [? ?] |]. intros Hall.
    apply list_elem_of_lookup_2 in Hr. by destruct (Hall r Hr).
  - split; [by intros [? ?] |]. intros Hall.
    apply list_elem_of_lookup_2 in Hr. destruct (Hall r Hr) as [_ Hpos].
    apply finite_not_negative in Hpos; [done | by apply Hfin].
Qed.

Lemma evidence_person_names_passes `{HashOrder} submission evidence self :
  passes (__evidence_person_names submission evidence) self ↔
  NoDup (ev_person_name <$> evidence)
  ∧ ∀ n, n ∈ ev_person_name <$> evidence ↔ n ∈ sub_person_name <$> submission.
Proof.
  unfold passes, outcome.
  pose proof (evidence_person_names_cases submission evidence self) as Hcases.
  cbv zeta in Hcases.
  destruct Hcases
    as [(Hnd & Hsame & ->)
       |[(n & Htwice & ->)
        |[(n & Hnd & Hev & Hsub & ->)
         |(n & Hnd & Hincl & Hsub & Hev & ->)]]]; simpl.
  - split; [done | by eexists].
  - apply occurs_twice_NoDup in Htwice.
    split; [by intros [? ?] | by intros [? _]].
  - split; [by intros [? ?] |]. intros [_ Hsame]. destruct Hsub. by apply Hsame.
  - split; [by intros [? ?] |]. intros [_ Hsame]. destruct Hev. by apply Hsame.
Qed.

Lemma evidence_modalities_passes `{HashOrder} evidence self :
  passes (__evidence_modalities evidence) self ↔
  ∀ r, r ∈ evidence → ev_modality r = "written" ∨ ev_modality r = "pronounced".
Proof.
  unfold passes, outcome.
  destruct (evidence_modalities_cases evidence self)
    as [[Hall ->]|(m & (r & Hr & <-) & Hbad & ->)]; simpl.
  - split; [| by eexists]. intros _ r Hr. by apply elem_of_MODALITIES, Hall.
  - split; [by intros [? ?] |]. intros Hall. destruct Hbad.
    by apply elem_of_MODALITIES, Hall.
Qed.

(** ** The two blocks of a call *)

Lemma submission_block_valid `{HashOrder} self submission :
  first_failure
    ((λ check, outcome check self) <$> applicable_checks self submission None)
    = inr PyTrue ↔
  valid_submission self submission.
Proof.
  rewrite submission_checks_pass, submission_person_names_passes,
    submission_shots_passes, submission_confidence_passes.
  reflexivity.
Qed.

Lemma evidence_block_valid `{HashOrder} self submission rows :
  first_failure
    ((λ check, outcome check self)
       <$> ((if truthy (videos self) then [__evidence_videos rows] else [])
            ++ [__evidence_timestamps rows;
                __evidence_person_names submission rows;
                __evidence_modalities rows])%list)
    = inr PyTrue ↔
  valid_evidence self submission rows.
Proof.
  assert (first_failure
            ((λ check, outcome check self)
               <$> ((if truthy (videos self) then [__evidence_videos rows] else [])
                    ++ [__evidence_timestamps rows;
                        __evidence_person_names submission rows;
                        __evidence_modalities rows])%list)
            = inr PyTrue ↔
          (truthy (videos self) = true → passes (__evidence_videos rows) self)
          ∧ passes (__evidence_timestamps rows) self
          ∧ passes (__evidence_person_names submission rows) self
          ∧ passes (__evidence_modalities rows) self) as ->.
  { unfold passes. destruct (truthy (videos self)); csimpl.
    - destruct (outcome (__evidence_videos rows) self) as [e1|v1].
      { split; [done |]. intros [Hvideos _].
        by destruct (Hvideos eq_refl) as [? [=]]. }
      destruct (outcome (__evidence_timestamps rows) self) as [e2|v2];
        [split; [done | by intros (_ & [? [=]] & _)] |].
      destruct (outcome (__evidence_person_names submission rows) self)
        as [e3|v3]; [split; [done | by intros (_ & _ & [? [=]] & _)] |].
      destruct (outcome (__evidence_modalities rows) self) as [e4|v4];
        [split; [done | by intros (_ & _ & _ & [? [=]])] |].
      split; [| done]. intros _. repeat split; by eexists.
    - destruct (outcome (__evidence_timestamps rows) self) as [e2|v2];
        [split; [done | by intros (_ & [? [=]] & _)] |].
      destruct (outcome (__evidence_person_names submission rows) self)
        as [e3|v3]; [split; [done | by intros (_ & _ & [? [=]] & _)] |].
      destruct (outcome (__evidence_modalities rows) self) as [e4|v4];
        [split; [done | by intros (_ & _ & _ & [? [=]])] |].
      split; [| done]. intros _. split; [done |]. repeat split; by eexists. }
  rewrite evidence_videos_passes, evidence_timestamps_passes,
    evidence_person_names_passes, evidence_modalities_passes.
  unfold valid_evidence. tauto.
Qed.

Lemma first_failure_True_or_raises results :
  first_failure results = inr PyTrue ∨ ∃ e, first_failure results = inl e.
Proof.
  destruct (first_failure results) as [e|v] eqn:Hfirst; [right; by exists e |].
  left. by apply first_failure_returns in Hfirst as [-> _].
Qed.

Lemma call_blocks `{Pandas} `{HashOrder} fp_submission fp_evidence self
    submission rows :
  read_submission fp_submission = inr submission →
  loads_evidence fp_evidence (Some rows) →
  outcome (__call__ fp_submission fp_evidence) self =
  match first_failure
          ((λ check, outcome check self)
             <$> applicable_checks self submission None) with
  | inl e => inl e
  | inr _ =>
      first_failure
        ((λ check, outcome check self)
           <$> ((if truthy (videos self) then [__evidence_videos rows] else [])
                ++ [__evidence_timestamps rows;
                    __evidence_person_names submission rows;
                    __evidence_modalities rows])%list)
  end.
Proof.
  intros Hsub Hev. unfold outcome at 1.
  rewrite (call_first_failure _ _ _ submission (Some rows)) by done.
  cbn [snd]. by rewrite applicable_checks_evidence, fmap_app, first_failure_app.
Qed.

Lemma call_submission_failure `{Pandas} `{HashOrder} fp_submission fp_evidence
    self submission e :
  read_submission fp_submission = inr submission →
  first_failure
    ((λ check, outcome check self) <$> applicable_checks self submission None)
    = inl e →
  outcome (__call__ fp_submission fp_evidence) self = inl e.
Proof.
  intros Hsub Hfirst. unfold outcome at 1.
  destruct (truthy fp_evidence) eqn:Htruthy.
  - destruct fp_evidence as [fp|]; [| done].
    destruct (read_evidence fp) as [what|rows] eqn:Hread.
    + rewrite (call_unreadable_evidence _ _ _ submission what) by done.
      cbn [snd]. by rewrite Hfirst.
    + change ((__call__ fp_submission (Some fp) self).2)
        with (outcome (__call__ fp_submission (Some fp)) self).
      rewrite (call_blocks _ _ _ submission rows); [by rewrite Hfirst | done |].
      by exists fp.
  - rewrite (call_first_failure _ _ _ submission None) by done. done.
Qed.

(** ** Acceptance *)

(** X1.  Once the files are read, a call returns [True] exactly when the
    data satisfies every rule of the engine: names in the alphabet, shots
    known (if the engine has a shot list), confidences finite and, with
    evidence, videos known (if the engine has a video list), timestamps
    finite and at least zero, one evidence row per name, the same names on
    both sides, modalities among the two literals. *)
Theorem call_accepts_exactly_valid_data `{Pandas} `{HashOrder}
    fp_submission fp_evidence self submission evidence :
  read_submission fp_submission = inr submission →
  loads_evidence fp_evidence evidence →
  outcome (__call__ fp_submission fp_evidence) self = inr PyTrue ↔
  valid_submission self submission
  ∧ match evidence with
    | Some rows => valid_evidence self submission rows
    | None => True
    end.
Proof.
  intros Hsub Hev. destruct evidence as [rows|].
  - rewrite (call_blocks _ _ _ submission rows) by done.
    rewrite <- submission_block_valid, <- evidence_block_valid.
    destruct (first_failure_True_or_raises
                ((λ check, outcome check self)
                   <$> applicable_checks self submission None))
      as [->|[e ->]]; [tauto |].
    split; [done | by intros [[=] _]].
  - unfold outcome.
    rewrite (call_first_failure _ _ _ submission None) by done. cbn [snd].
    rewrite submission_block_valid. tauto.
Qed.

Lemma call_accepts_exactly_valid_data_witness :
  read_submission "submission.txt" = inr demo_submission
  ∧ loads_evidence (Some "evidence.txt") (Some demo_evidence)
  ∧ valid_submission demo_engine demo_submission
  ∧ valid_evidence demo_engine demo_submission demo_evidence.
Proof.
  assert (read_submission "submission.txt" = inr demo_submission) as Hsub
    by reflexivity.
  assert (loads_evidence (Some "evidence.txt") (Some demo_evidence))
    as Hev by (exists "evidence.txt"; repeat split; reflexivity).
  split; [exact Hsub |]. split; [exact Hev |].
  apply (proj1 (call_accepts_exactly_valid_data
                  "submission.txt" (Some "evidence.txt") demo_engine
                  demo_submission (Some demo_evidence) Hsub Hev)).
  vm_compute. reflexivity.
Defined.

(** ** Files that cannot be read *)

(** X2.  When the submission is read but the evidence file cannot be, the
    call raises the reader's error exactly when the submission is valid; an
    invalid submission is reported instead, by the check it violates. *)
Theorem unreadable_evidence_reported_after_submission `{Pandas} `{HashOrder}
    fp_submission fp self submission what :
  read_submission fp_submission = inr submission →
  truthy (Some fp) = true →
  read_evidence fp = inl what →
  (outcome (__call__ fp_submission (Some fp)) self = inl (ReaderError what) ↔
     valid_submission self submission)
  ∧ (¬ valid_submission self submission →
       ∃ check, check ∈ applicable_checks self submission None
         ∧ fails check self
         ∧ outcome (__call__ fp_submission (Some fp)) self = outcome check self).
Proof.
  intros Hsub Htruthy Hread.
  assert (outcome (__call__ fp_submission (Some fp)) self =
          match first_failure
                  ((λ check, outcome check self)
                     <$> applicable_checks self submission None) with
          | inl e => inl e
          | inr _ => inl (ReaderError what)
          end) as ->.
  { unfold outcome at 1.
    by rewrite (call_unreadable_evidence _ _ _ submission what). }
  rewrite <- submission_block_valid.
  destruct (first_failure_True_or_raises
              ((λ check, outcome check self)
                 <$> applicable_checks self submission None))
    as [Hpass|[e Hfail]].
  - rewrite Hpass. split; [done |]. by intros [].
  - rewrite Hfail. split.
    + split; [| done]. intros [= ->].
      apply first_failure_origin in Hfail as (i & check & Hi & He & _).
      apply list_elem_of_lookup_2, elem_of_applicable_checks in Hi
        as [->|[[_ ->]|[->|(rows' & [=] & _)]]].
      * apply submission_person_names_raises in He as (n & [=] & _).
      * apply submission_shots_raises in He
          as [[=]|(? & ? & ? & ? & _ & [=] & _)].
      * apply submission_confidence_raises in He as (? & [=] & _).
    + intros _.
      apply first_failure_origin in Hfail as (i & check & Hi & He & _).
      exists check. split; [by apply list_elem_of_lookup_2 in Hi |].
      split; [by exists e | done].
Qed.

Lemma unreadable_evidence_reported_after_submission_witness :
  read_submission "submission.txt" = inr demo_submission
  ∧ truthy (Some "lost.txt") = true
  ∧ read_evidence "lost.txt" = inl "No such file"
  ∧ (outcome (__call__ "submission.txt" (Some "lost.txt")) demo_engine =
       inl (ReaderError "No such file") ↔
     valid_submission demo_engine demo_submission).
Proof.
  assert (read_submission "submission.txt" = inr demo_submission) as Hsub
    by reflexivity.
  assert (truthy (Some "lost.txt") = true) as Htruthy by reflexivity.
  assert (read_evidence "lost.txt" = inl "No such file") as Hread
    by reflexivity.
  split; [exact Hsub |]. split; [exact Htruthy |]. split; [exact Hread |].
  exact (proj1 (unreadable_evidence_reported_after_submission
                  "submission.txt" "lost.txt" demo_engine demo_submission
                  "No such file" Hsub Htruthy Hread)).
Defined.

(** X3.  When the submission is invalid the evidence argument plays no part:
    the call fails, and with the same error whichever evidence source it is
    given, readable or not, or none. *)
Theorem invalid_submission_ignores_evidence `{Pandas} `{HashOrder}
    fp_submission fp_evidence1 fp_evidence2 self submission :
  read_submission fp_submission = inr submission →
  ¬ valid_submission self submission →
  fails (__call__ fp_submission fp_evidence1) self
  ∧ outcome (__call__ fp_submission fp_evidence1) self =
    outcome (__call__ fp_submission fp_evidence2) self.
Proof.
  intros Hsub Hinvalid. rewrite <- submission_block_valid in Hinvalid.
  destruct (first_failure_True_or_raises
              ((λ check, outcome check self)
                 <$> applicable_checks self submission None))
    as [Hpass|[e Hfail]]; [done |].
  pose proof (call_submission_failure fp_submission fp_evidence1 self
                submission e Hsub Hfail) as H1.
  pose proof (call_submission_failure fp_submission fp_evidence2 self
                submission e Hsub Hfail) as H2.
  split; [by exists e | by rewrite H1, H2].
Qed.

Lemma invalid_submission_ignores_evidence_witness :
  read_submission "bad_shot.txt" = inr bad_shot_submission
  ∧ ¬ valid_submission demo_engine bad_shot_submission
  ∧ outcome (__call__ "bad_shot.txt" (Some "lost.txt")) demo_engine =
    outcome (__call__ "bad_shot.txt" None) demo_engine.
Proof.
  assert (read_submission "bad_shot.txt" = inr bad_shot_submission) as Hsub
    by reflexivity.
  assert (¬ valid_submission demo_engine bad_shot_submission) as Hinvalid.
  { intros (_ & _ & Hfinite).
    apply (Hfinite (sub_row "C1" "V1" "S2" "alice" S754_nan)).
    - apply elem_of_cons. by left.
    - by left. }
  split; [exact Hsub |]. split; [exact Hinvalid |].
  exact (proj2 (invalid_submission_ignores_evidence
                  "bad_shot.txt" (Some "lost.txt") None demo_engine
                  bad_shot_submission Hsub Hinvalid)).
Defined.

(** ** What a call reads of the engine *)

Create HintDb engine.

Lemma respects_ret {A} R (a : A) : respects R (ret a).
Proof. done. Qed.

Lemma respects_raise {A} R e : respects R (@raise A e).
Proof. done. Qed.

Lemma respects_attr_opt {A} (R : Validation → Validation → Prop) name
    (field : Validation → option A) :
  (∀ s1 s2, R s1 s2 → field s1 = field s2) → respects R (attr_opt name field).
Proof.
  intros Hfield s1 s2 HR. unfold outcome, attr_opt.
  rewrite (Hfield s1 s2 HR). by destruct (field s2).
Qed.

Lemma respects_bind {A B} R (m : Py A) (k : A → Py B) :
  read_only m → respects R m → (∀ a, respects R (k a)) → respects R (bind m k).
Proof.
  intros Hro Hm Hk s1 s2 HR. unfold outcome, bind.
  rewrite (read_only_run m s1 Hro), (read_only_run m s2 Hro), (Hm s1 s2 HR).
  destruct (outcome m s2) as [e|a]; [done |]. by apply Hk.
Qed.

Lemma respects_if {A} R (b : bool) (m1 m2 : Py A) :
  respects R m1 → respects R m2 → respects R (if b then m1 else m2).
Proof. by destruct b. Qed.

Lemma respects_for_each {A} R (xs : list A) body :
  (∀ x, read_only (body x)) → (∀ x, respects R (body x)) →
  respects R (for_each xs body).
Proof.
  intros Hro Hbody. induction xs as [|x xs IH]; simpl.
  - apply respects_ret.
  - apply respects_bind; [apply Hro | apply Hbody | by intros _].
Qed.

Lemma respects_pop_or_raise `{HashOrder} `{Countable A} R (X : gset A) :
  respects R (pop_or_raise X).
Proof. intros s1 s2 _. unfold outcome, pop_or_raise. by destruct (pop X). Qed.

#[local] Hint Resolve respects_ret respects_raise respects_if
  respects_pop_or_raise : engine.
#[local] Hint Extern 2 (respects _ (bind _ _)) =>
  apply respects_bind; [auto 10 with frame | | intros ?] : engine.
#[local] Hint Extern 2 (respects _ (for_each _ _)) =>
  apply respects_for_each; [intros ?; auto 10 with frame | intros ?] : engine.
#[local] Hint Extern 3 (respects _ (match ?x with _ => _ end)) =>
  destruct x : engine.

Lemma respects_submission_person_names `{HashOrder} R submission :
  respects R (__submission_person_names submission).
Proof. unfold __submission_person_names. auto 10 with engine. Qed.

Lemma respects_submission_confidence R submission :
  respects R (__submission_confidence submission).
Proof. unfold __submission_confidence. auto 10 with engine. Qed.

Lemma respects_evidence_timestamps R evidence :
  respects R (__evidence_timestamps evidence).
Proof. unfold __evidence_timestamps. auto 10 with engine. Qed.

Lemma respects_evidence_person_names `{HashOrder} R submission evidence :
  respects R (__evidence_person_names submission evidence).
Proof. unfold __evidence_person_names. auto 10 with engine. Qed.

Lemma respects_evidence_modalities `{HashOrder} R evidence :
  respects R (__evidence_modalities evidence).
Proof. unfold __evidence_modalities. auto 10 with engine. Qed.

Lemma respects_submission_shots `{HashOrder} submission :
  respects (λ s1 s2, shots_ s1 = shots_ s2) (__submission_shots submission).
Proof.
  unfold __submission_shots.
  apply respects_bind; [auto with frame | by apply respects_attr_opt |].
  intros reference. auto 10 with engine.
Qed.

Lemma respects_evidence_videos `{HashOrder} evidence :
  respects (λ s1 s2, videos_ s1 = videos_ s2) (__evidence_videos evidence).
Proof.
  unfold __evidence_videos.
  apply respects_bind; [auto with frame | by apply respects_attr_opt |].
  intros reference. auto 10 with engine.
Qed.

Lemma submission_block_engine `{HashOrder} s1 s2 submission :
  truthy (shots s1) = truthy (shots s2) →
  (truthy (shots s1) = true → shots_ s1 = shots_ s2) →
  (λ check, outcome check s1) <$> applicable_checks s1 submission None =
  (λ check, outcome check s2) <$> applicable_checks s2 submission None.
Proof.
  intros Htruthy Href. unfold applicable_checks. rewrite <- Htruthy.
  pose proof (respects_submission_person_names (λ _ _, True) submission s1 s2 I)
    as Hnames.
  pose proof (respects_submission_confidence (λ _ _, True) submission s1 s2 I)
    as Hconf.
  destruct (truthy (shots s1)); csimpl; rewrite Hnames, Hconf; [| done].
  by rewrite (respects_submission_shots submission s1 s2 (Href eq_refl)).
Qed.

Lemma evidence_block_engine `{HashOrder} s1 s2 submission rows :
  truthy (videos s1) = truthy (videos s2) →
  (truthy (videos s1) = true → videos_ s1 = videos_ s2) →
  (λ check, outcome check s1)
    <$> ((if truthy (videos s1) then [__evidence_videos rows] else [])
         ++ [__evidence_timestamps rows;
             __evidence_person_names submission rows;
             __evidence_modalities rows])%list =
  (λ check, outcome check s2)
    <$> ((if truthy (videos s2) then [__evidence_videos rows] else [])
         ++ [__evidence_timestamps rows;
             __evidence_person_names submission rows;
             __evidence_modalities rows])%list.
Proof.
  intros Htruthy Href. rewrite <- Htruthy.
  pose proof (respects_evidence_timestamps (λ _ _, True) rows s1 s2 I) as Hts.
  pose proof (respects_evidence_person_names (λ _ _, True) submission rows
                s1 s2 I) as Hnames.
  pose proof (respects_evidence_modalities (λ _ _, True) rows s1 s2 I) as Hmod.
  destruct (truthy (videos s1)); csimpl; rewrite Hts, Hnames, Hmod; [| done].
  by rewrite (respects_evidence_videos rows s1 s2 (Href eq_refl)).
Qed.

(** A call reads of the engine only whether it has a shot list and a video
    list, and the reference sets of the lists it has; of the video side,
    only when evidence is given. *)
Lemma call_engine_congruence `{Pandas} `{HashOrder} fp_submission fp_evidence
    s1 s2 :
  truthy (shots s1) = truthy (shots s2) →
  (truthy (shots s1) = true → shots_ s1 = shots_ s2) →
  (truthy fp_evidence = true →
     truthy (videos s1) = truthy (videos s2)
     ∧ (truthy (videos s1) = true → videos_ s1 = videos_ s2)) →
  outcome (__call__ fp_submission fp_evidence) s1 =
  outcome (__call__ fp_submission fp_evidence) s2.
Proof.
  intros Hshots Href Hvideos.
  destruct (read_submission fp_submission) as [what|submission] eqn:Hsub.
  { unfold outcome. by rewrite !(call_unreadable_submission _ _ _ what). }
  pose proof (submission_block_engine s1 s2 submission Hshots Href) as Hblock.
  destruct (truthy fp_evidence) eqn:Htruthy.
  - destruct fp_evidence as [fp|]; [| done].
    destruct (Hvideos eq_refl) as [Hv Hvref].
    destruct (read_evidence fp) as [what|rows] eqn:Hread.
    + unfold outcome.
      rewrite !(call_unreadable_evidence _ _ _ submission what) by done.
      cbn [snd]. by rewrite Hblock.
    + assert (loads_evidence (Some fp) (Some rows)) as Hev by (by exists fp).
      rewrite !(call_blocks _ _ _ submission rows) by done.
      by rewrite Hblock, (evidence_block_engine s1 s2 submission rows Hv Hvref).
  - unfold outcome.
    rewrite !(call_first_failure _ _ _ submission None) by done.
    cbn [snd]. by rewrite Hblock.
Qed.

(** X4.  A call without evidence does not look at the video side of the
    engine: two engines with the same shot attributes give the same
    outcome, and such a call never raises the error of an evidence check
    (invalid video, incorrect or negative timestamp, duplicate, extra or
    missing person name, incorrect modality). *)
Theorem call_without_evidence_ignores_videos `{Pandas} `{HashOrder}
    fp_submission fp_evidence s1 s2 :
  truthy fp_evidence = false →
  shots s1 = shots s2 →
  shots_ s1 = shots_ s2 →
  outcome (__call__ fp_submission fp_evidence) s1 =
    outcome (__call__ fp_submission fp_evidence) s2
  ∧ ∀ reason,
      evidence_reason reason →
      outcome (__call__ fp_submission fp_evidence) s1 ≠ inl (ValueError reason).
Proof.
  intros Hnone Hshots Href. split.
  - apply call_engine_congruence; [by rewrite Hshots | done |].
    intros Htrue. congruence.
  - intros reason Hevidence. unfold outcome.
    destruct (read_submission fp_submission) as [what|submission] eqn:Hsub.
    { by rewrite (call_unreadable_submission _ _ _ what). }
    rewrite (call_first_failure _ _ _ submission None) by done. cbn [snd].
    intros Hfirst.
    apply first_failure_origin in Hfirst as (i & check & Hi & He & _).
    apply list_elem_of_lookup_2, elem_of_applicable_checks in Hi
      as [->|[[_ ->]|[->|(rows' & [=] & _)]]].
    + apply submission_person_names_raises in He as (n & [= ->] & _).
      exact Hevidence.
    + apply submission_shots_raises in He
        as [[=]|(? & c & v & s & _ & [= ->] & _)].
      exact Hevidence.
    + apply submission_confidence_raises in He as (i' & [= ->] & _).
      exact Hevidence.
Qed.

Lemma call_without_evidence_ignores_videos_witness :
  let no_videos :=
    {| shots := shots demo_engine; shots_ := shots_ demo_engine;
       videos := None; videos_ := None |} in
  truthy None = false
  ∧ shots demo_engine = shots no_videos
  ∧ shots_ demo_engine = shots_ no_videos
  ∧ outcome (__call__ "bad_shot.txt" None) demo_engine =
    outcome (__call__ "bad_shot.txt" None) no_videos.
Proof.
  intros no_videos.
  split; [reflexivity |]. split; [reflexivity |]. split; [reflexivity |].
  exact (proj1 (call_without_evidence_ignores_videos
                  "bad_shot.txt" None demo_engine no_videos
                  eq_refl eq_refl eq_refl)).
Defined.

(** ** Construction *)

(** X5.  [Validation(shots, videos)] reads the shot list first, then the
    video list, each only when its path is true.  It raises the reader's
    error of the first list it cannot read (so an unreadable shot list is
    reported whatever the video list is), and otherwise yields an engine that
    keeps both arguments and holds a reference set exactly for the lists
    given: the triples, resp. pairs, of their rows. *)
Theorem construction_outcome `{Pandas} (shots0 videos0 : option string) :
  match new shots0 videos0 with
  | inr self =>
      shots self = shots0 ∧ videos self = videos0
      ∧ (if truthy shots0
         then ∃ path rows, shots0 = Some path ∧ read_shots path = inr rows ∧
                ∀ c v s, (∃ reference, shots_ self = Some reference
                                       ∧ (c, v, s) ∈ reference) ↔
                  ∃ r, r ∈ rows ∧ shot_corpus_id r = c
                         ∧ shot_video_id r = v ∧ shot_shot_id r = s
         else shots_ self = None)
      ∧ (if truthy videos0
         then ∃ path rows, videos0 = Some path ∧ read_videos path = inr rows ∧
                ∀ c v, (∃ reference, videos_ self = Some reference
                                     ∧ (c, v) ∈ reference) ↔
                  ∃ r, r ∈ rows ∧ video_corpus_id r = c ∧ video_video_id r = v
         else videos_ self = None)
  | inl e =>
      ∃ path what, e = ReaderError what ∧
        ((shots0 = Some path ∧ truthy shots0 = true
          ∧ read_shots path = inl what)
         ∨ (videos0 = Some path ∧ truthy videos0 = true
            ∧ read_videos path = inl what
            ∧ (truthy shots0 = true →
                 ∃ p rows, shots0 = Some p ∧ read_shots p = inr rows)))
  end
  ∧ (∀ path what, shots0 = Some path → truthy shots0 = true →
       read_shots path = inl what →
       new shots0 videos0 = inl (ReaderError what)).
Proof.
  split.
  - destruct (new shots0 videos0) as [e|self] eqn:Hnew.
    + revert Hnew.
      unfold new, __init__, bind, setattr, attr, when_truthy, _load_shots,
        _load_videos, lift, ret, blank. simpl.
      destruct shots0 as [ps|]; destruct videos0 as [pv|]; simpl;
        repeat (match goal with
                | |- context [negb (String.eqb ?p "")] =>
                    destruct (negb (String.eqb p "")) eqn:?
                | |- context [read_shots ?p] => destruct (read_shots p) eqn:?
                | |- context [read_videos ?p] => destruct (read_videos p) eqn:?
                end; simpl);
        intros [= <-]; eauto 10.
      all: eexists _, _; split; [reflexivity |]; right;
        repeat split; eauto; congruence.
    + apply new_attributes in Hnew as (Hs & Hv & Hshots & Hvideos).
      split; [done |]. split; [done |]. split.
      * destruct (truthy shots0); [| done].
        destruct Hshots as (path & rows & -> & Hread & ->).
        exists path, rows. split; [done |]. split; [done |]. intros c v s.
        split.
        -- intros (reference & [= <-] & Hin).
           apply elem_of_list_to_set, list_elem_of_fmap in Hin
             as (r & [= -> -> ->] & Hr). by exists r.
        -- intros (r & Hr & <- & <- & <-). eexists. split; [done |].
           apply elem_of_list_to_set, list_elem_of_fmap. by exists r.
      * destruct (truthy videos0); [| done].
        destruct Hvideos as (path & rows & -> & Hread & ->).
        exists path, rows. split; [done |]. split; [done |]. intros c v.
        split.
        -- intros (reference & [= <-] & Hin).
           apply elem_of_list_to_set, list_elem_of_fmap in Hin
             as (r & [= -> ->] & Hr). by exists r.
        -- intros (r & Hr & <- & <-). eexists. split; [done |].
           apply elem_of_list_to_set, list_elem_of_fmap. by exists r.
  - intros path what -> Htruthy Hread.
    unfold new, __init__, bind, setattr, attr, when_truthy, _load_shots, lift.
    simpl. simpl in Htruthy. by rewrite Htruthy, Hread.
Qed.

Lemma submission_shots_attribute_error `{HashOrder} submission self a :
  outcome (__submission_shots submission) self = inl (AttributeError a) →
  shots_ self = None.
Proof.
  unfold outcome. destruct (shots_ self) as [reference|] eqn:Href; [| done].
  by destruct (submission_shots_cases submission self reference Href)
    as [[_ ->]|(c & v & s & _ & _ & ->)].
Qed.

Lemma evidence_videos_attribute_error `{HashOrder} evidence self a :
  outcome (__evidence_videos evidence) self = inl (AttributeError a) →
  videos_ self = None.
Proof.
  unfold outcome. destruct (videos_ self) as [reference|] eqn:Href; [| done].
  by destruct (evidence_videos_cases evidence self reference Href)
    as [[_ ->]|(c & v & _ & _ & ->)].
Qed.

Lemma constructed_engine_errors `{Pandas} `{HashOrder}
    shots0 videos0 self fp_submission fp_evidence e :
  new shots0 videos0 = inr self →
  outcome (__call__ fp_submission fp_evidence) self = inl e →
  (∃ what, e = ReaderError what) ∨ (∃ reason, e = ValueError reason).
Proof.
  intros Hnew Hcall.
  apply new_attributes in Hnew as (Hs & Hv & Hshots & Hvideos).
  apply call_raises_origin in Hcall
    as [[what ->]|(submission & evidence & check & Hsub & Hin & He)];
    [left; by exists what | right].
  apply elem_of_applicable_checks in Hin
    as [->|[[Htrue ->]|[->|(rows & -> & [[Htrue ->]|[->|[->| ->]]])]]].
  - apply submission_person_names_raises in He as (n & -> & _). by eexists.
  - rewrite Hs in Htrue. rewrite Htrue in Hshots.
    destruct Hshots as (? & ? & _ & _ & Href).
    apply submission_shots_raises in He as Hshape.
    destruct Hshape as [->|(? & ? & ? & ? & _ & -> & _)]; [| by eexists].
    apply submission_shots_attribute_error in He. congruence.
  - apply submission_confidence_raises in He as (? & -> & _). by eexists.
  - rewrite Hv in Htrue. rewrite Htrue in Hvideos.
    destruct Hvideos as (? & ? & _ & _ & Href).
    apply evidence_videos_raises in He as Hshape.
    destruct Hshape as [->|(? & ? & ? & _ & -> & _)]; [| by eexists].
    apply evidence_videos_attribute_error in He. congruence.
  - apply evidence_timestamps_raises in He as (? & [->| ->]); by eexists.
  - apply evidence_person_names_raises in He as (? & [->|[->| ->]]); by eexists.
  - apply evidence_modalities_raises in He as (? & -> & _). by eexists.
Qed.

(** X6.  An engine that [Validation(...)] has built never trips over itself:
    whatever files a call is given, it raises neither an [AttributeError]
    for a reference set that was not loaded (the call reads [shots_] and
    [videos_] only under the test under which the constructor assigned
    them) nor a [KeyError] from popping an empty set (every [pop] is
    guarded by the set being non-empty). *)
Theorem constructed_engine_no_attribute_or_key_error `{Pandas} `{HashOrder}
    shots0 videos0 self fp_submission fp_evidence e :
  new shots0 videos0 = inr self →
  outcome (__call__ fp_submission fp_evidence) self = inl e →
  (∀ attribute, e ≠ AttributeError attribute) ∧ (∀ what, e ≠ KeyError what).
Proof.
  intros Hnew Hcall.
  destruct (constructed_engine_errors shots0 videos0 self fp_submission
              fp_evidence e Hnew Hcall) as [[what ->]|[reason ->]].
  - split; intros ?; discriminate.
  - split; intros ?; discriminate.
Qed.

Lemma constructed_engine_no_attribute_or_key_error_witness :
  new (Some "shots.lst") (Some "videos.lst") = inr demo_engine
  ∧ outcome (__call__ "bad_shot.txt" (Some "lost.txt")) demo_engine =
      inl (ValueError (InvalidShot "C1" "V1" "S2"))
  ∧ (∀ attribute,
       ValueError (InvalidShot "C1" "V1" "S2") ≠ AttributeError attribute)
  ∧ (∀ what, ValueError (InvalidShot "C1" "V1" "S2") ≠ KeyError what).
Proof.
  assert (new (Some "shots.lst") (Some "videos.lst") = inr demo_engine) as Hnew
    by (vm_compute; reflexivity).
  assert (outcome (__call__ "bad_shot.txt" (Some "lost.txt")) demo_engine =
            inl (ValueError (InvalidShot "C1" "V1" "S2"))) as Hcall
    by (vm_compute; reflexivity).
  split; [exact Hnew |]. split; [exact Hcall |].
  exact (constructed_engine_no_attribute_or_key_error
           (Some "shots.lst") (Some "videos.lst") demo_engine
           "bad_shot.txt" (Some "lost.txt") _ Hnew Hcall).
Defined.

(** An engine put together by hand, with a shot path but no [shots_], does
    raise the [AttributeError]: the constructor is what rules it out. *)
Example unconstructed_engine_lacks_shots_ :
  outcome (__call__ "submission.txt" None)
    {| shots := Some "shots.lst"; shots_ := None;
       videos := None; videos_ := None |} =
  inl (AttributeError "shots_").
Proof. vm_compute. reflexivity. Qed.

(** ** Line numbers *)

Lemma call_raises_origin_read `{Pandas} `{HashOrder} fp_submission fp_evidence
    self e :
  outcome (__call__ fp_submission fp_evidence) self = inl e →
  (∃ what, e = ReaderError what)
  ∨ ∃ submission, read_submission fp_submission = inr submission ∧
      ((∃ check, check ∈ applicable_checks self submission None
                 ∧ outcome check self = inl e)
       ∨ ∃ fp rows check,
           fp_evidence = Some fp ∧ read_evidence fp = inr rows
           ∧ check ∈ [__evidence_videos rows; __evidence_timestamps rows;
                      __evidence_person_names submission rows;
                      __evidence_modalities rows]
           ∧ outcome check self = inl e).
Proof.
  destruct (read_submission fp_submission) as [what|submission] eqn:Hsub.
  { unfold outcome. rewrite (call_unreadable_submission _ _ _ what) by done.
    intros [= <-]. left. by exists what. }
  intros Hcall.
  destruct (first_failure
              ((λ check, outcome check self)
                 <$> applicable_checks self submission None))
    as [e'|v] eqn:Hblock.
  { rewrite (call_submission_failure _ _ _ submission e') in Hcall by done.
    injection Hcall as ->. right. exists submission. split; [done |]. left.
    apply first_failure_origin in Hblock as (i & check & Hi & He & _).
    exists check. split; [by apply list_elem_of_lookup_2 in Hi | done]. }
  destruct (truthy fp_evidence) eqn:Htruthy.
  - destruct fp_evidence as [fp|]; [| done].
    destruct (read_evidence fp) as [what|rows] eqn:Hread.
    + unfold outcome in Hcall.
      rewrite (call_unreadable_evidence _ _ _ submission what) in Hcall by done.
      cbn [snd] in Hcall. rewrite Hblock in Hcall. injection Hcall as <-.
      left. by exists what.
    + rewrite (call_blocks _ _ _ submission rows) in Hcall;
        [| done | by exists fp].
      rewrite Hblock in Hcall.
      apply first_failure_origin in Hcall as (i & check & Hi & He & _).
      right. exists submission. split; [done |]. right.
      exists fp, rows, check. split; [done |]. split; [done |]. split; [| done].
      apply list_elem_of_lookup_2 in Hi.
      destruct (truthy (videos self)); [done |].
      apply elem_of_cons. by right.
  - unfold outcome in Hcall.
    rewrite (call_first_failure _ _ _ submission None) in Hcall by done.
    cbn [snd] in Hcall. congruence.
Qed.

Lemma first_row_bounds {A} (P : A → Prop) rows i :
  first_row P rows i →
  ∃ r, rows !! (i + 1 - 1) = Some r ∧ P r
    ∧ (1 ≤ i + 1 ∧ i + 1 ≤ length rows)%nat.
Proof.
  intros [(r & Hr & HP) _]. exists r.
  replace (i + 1 - 1) with i by lia. split; [done |]. split; [done |].
  apply lookup_lt_Some in Hr. lia.
Qed.

(** X7.  A line number in an error of a call points into the file it was
    read from: it lies between 1 and the number of rows read, and the row on
    that line has the defect named (a confidence or timestamp that is NaN or
    an infinity, or a timestamp below zero). *)
Theorem reported_line_within_file `{Pandas} `{HashOrder}
    fp_submission fp_evidence self line :
  (outcome (__call__ fp_submission fp_evidence) self =
     inl (ValueError (IncorrectConfidence line)) →
   ∃ submission r, read_submission fp_submission = inr submission
     ∧ (1 ≤ line ∧ line ≤ length submission)%nat
     ∧ submission !! (line - 1) = Some r ∧ non_finite (sub_confidence r))
  ∧ (outcome (__call__ fp_submission fp_evidence) self =
       inl (ValueError (IncorrectTimestamp line)) →
     ∃ fp rows r, fp_evidence = Some fp ∧ read_evidence fp = inr rows
       ∧ (1 ≤ line ∧ line ≤ length rows)%nat
       ∧ rows !! (line - 1) = Some r ∧ non_finite (ev_timestamp r))
  ∧ (outcome (__call__ fp_submission fp_evidence) self =
       inl (ValueError (NegativeTimestamp line)) →
     ∃ fp rows r, fp_evidence = Some fp ∧ read_evidence fp = inr rows
       ∧ (1 ≤ line ∧ line ≤ length rows)%nat
       ∧ rows !! (line - 1) = Some r ∧ negative (ev_timestamp r)).
Proof.
  split; [| split]; intros Hcall;
    apply call_raises_origin_read in Hcall
      as [[what [=]]
         |(submission & Hsub &
           [(check & Hin & He)|(fp & rows & check & -> & Hread & Hin & He)])].
  - apply elem_of_applicable_checks in Hin
      as [->|[[_ ->]|[->|(rows' & [=] & _)]]].
    + apply submission_person_names_raises in He as (n & [=] & _).
    + apply submission_shots_raises in He
        as [[=]|(? & ? & ? & ? & _ & [=] & _)].
    + apply submission_confidence_raises in He as (i & [= ->] & Hi).
      apply first_row_bounds in Hi as (r & Hr & Hnot & Hbounds).
      by exists submission, r.
  - rewrite !elem_of_cons in Hin.
    destruct Hin as [->|[->|[->|[->|Hnil]]]];
      [| | | | by apply elem_of_nil in Hnil].
    + apply evidence_videos_raises in He as [[=]|(? & ? & ? & _ & [=] & _)].
    + apply evidence_timestamps_raises in He as (? & [[=]|[=]]).
    + apply evidence_person_names_raises in He as (? & [[=]|[[=]|[=]]]).
    + apply evidence_modalities_raises in He as (? & [=] & _).
  - apply elem_of_applicable_checks in Hin
      as [->|[[_ ->]|[->|(rows' & [=] & _)]]].
    + apply submission_person_names_raises in He as (n & [=] & _).
    + apply submission_shots_raises in He
        as [[=]|(? & ? & ? & ? & _ & [=] & _)].
    + apply submission_confidence_raises in He as (i & [=] & _).
  - rewrite !elem_of_cons in Hin.
    destruct Hin as [->|[->|[->|[->|Hnil]]]];
      [| | | | by apply elem_of_nil in Hnil].
    + apply evidence_videos_raises in He as [[=]|(? & ? & ? & _ & [=] & _)].
    + unfold outcome in He.
      destruct (evidence_timestamps_cases rows self)
        as [[_ Hrun]|[(i & Hi & Hrun)|(i & _ & Hi & Hrun)]];
        rewrite Hrun in He; simpl in He; [done | | done].
      injection He as <-.
      apply first_row_bounds in Hi as (r & Hr & Hnot & Hbounds).
      by exists fp, rows, r.
    + apply evidence_person_names_raises in He as (? & [[=]|[[=]|[=]]]).
    + apply evidence_modalities_raises in He as (? & [=] & _).
  - apply elem_of_applicable_checks in Hin
      as [->|[[_ ->]|[->|(rows' & [=] & _)]]].
    + apply submission_person_names_raises in He as (n & [=] & _).
    + apply submission_shots_raises in He
        as [[=]|(? & ? & ? & ? & _ & [=] & _)].
    + apply submission_confidence_raises in He as (i & [=] & _).
  - rewrite !elem_of_cons in Hin.
    destruct Hin as [->|[->|[->|[->|Hnil]]]];
      [| | | | by apply elem_of_nil in Hnil].
    + apply evidence_videos_raises in He as [[=]|(? & ? & ? & _ & [=] & _)].
    + unfold outcome in He.
      destruct (evidence_timestamps_cases rows self)
        as [[_ Hrun]|[(i & Hi & Hrun)|(i & _ & Hi & Hrun)]];
        rewrite Hrun in He; simpl in He; [done | done |].
      injection He as <-.
      apply first_row_bounds in Hi as (r & Hr & Hneg & Hbounds).
      by exists fp, rows, r.
    + apply evidence_person_names_raises in He as (? & [[=]|[[=]|[=]]]).
    + apply evidence_modalities_raises in He as (? & [=] & _).
Qed.

(** ** What the reference lists and the paths contribute *)

(** X8.  A shot list is read as a set of triples: two lists with the same
    triples, in whatever order, with whatever repetitions and start and end
    times, give engines with the same Reference Shot Set, and every call has
    the same outcome on both. *)
Theorem shot_list_read_as_set_of_triples `{Pandas} `{HashOrder}
    path1 path2 videos0 rows1 rows2 s1 s2 fp_submission fp_evidence :
  truthy (Some path1) = true →
  truthy (Some path2) = true →
  read_shots path1 = inr rows1 →
  read_shots path2 = inr rows2 →
  (∀ c v s,
     (∃ r, r ∈ rows1 ∧ shot_corpus_id r = c ∧ shot_video_id r = v
           ∧ shot_shot_id r = s) ↔
     (∃ r, r ∈ rows2 ∧ shot_corpus_id r = c ∧ shot_video_id r = v
           ∧ shot_shot_id r = s)) →
  new (Some path1) videos0 = inr s1 →
  new (Some path2) videos0 = inr s2 →
  shots_ s1 = shots_ s2
  ∧ outcome (__call__ fp_submission fp_evidence) s1 =
    outcome (__call__ fp_submission fp_evidence) s2.
Proof.
  intros Ht1 Ht2 Hread1 Hread2 Hsame Hnew1 Hnew2.
  apply new_attributes in Hnew1 as (Hs1 & Hv1 & Hshots1 & Hvideos1).
  apply new_attributes in Hnew2 as (Hs2 & Hv2 & Hshots2 & Hvideos2).
  rewrite Ht1 in Hshots1. rewrite Ht2 in Hshots2.
  destruct Hshots1 as (? & ? & [= <-] & Hr1 & Href1).
  destruct Hshots2 as (? & ? & [= <-] & Hr2 & Href2).
  rewrite Hread1 in Hr1. injection Hr1 as <-.
  rewrite Hread2 in Hr2. injection Hr2 as <-.
  assert (shots_ s1 = shots_ s2) as Href.
  { rewrite Href1, Href2. f_equal. apply set_eq. intros [[c v] s].
    rewrite !elem_of_list_to_set, !list_elem_of_fmap. split.
    - intros (r & [= -> -> ->] & Hr).
      destruct (proj1 (Hsame (shot_corpus_id r) (shot_video_id r)
                         (shot_shot_id r)))
        as (r' & Hr' & Hc & Hv & Hs); [by exists r |].
      exists r'. by rewrite Hc, Hv, Hs.
    - intros (r & [= -> -> ->] & Hr).
      destruct (proj2 (Hsame (shot_corpus_id r) (shot_video_id r)
                         (shot_shot_id r)))
        as (r' & Hr' & Hc & Hv & Hs); [by exists r |].
      exists r'. by rewrite Hc, Hv, Hs. }
  split; [exact Href |].
  apply call_engine_congruence.
  - rewrite Hs1, Hs2. congruence.
  - done.
  - intros _. rewrite Hv1, Hv2. split; [done |]. intros Htrue.
    rewrite Htrue in Hvideos1, Hvideos2.
    destruct Hvideos1 as (p & rows & -> & Hrv & ->).
    destruct Hvideos2 as (p' & rows' & [= <-] & Hrv' & ->).
    rewrite Hrv in Hrv'. by injection Hrv' as <-.
Qed.

(** X9.  An empty path counts as no path.  Building the engine with [""]
    for a list succeeds exactly when building it with [None] does, loads no
    reference set, and every call has the same outcome on both engines; and
    a call given [""] as evidence behaves as a call given none. *)
Theorem empty_path_counts_as_none `{Pandas} `{HashOrder}
    (other : option string) fp_submission fp_evidence (self : Validation) :
  ((∃ s1, new (Some "") other = inr s1) ↔ (∃ s2, new None other = inr s2))
  ∧ (∀ s1 s2, new (Some "") other = inr s1 → new None other = inr s2 →
       shots_ s1 = None
       ∧ outcome (__call__ fp_submission fp_evidence) s1 =
         outcome (__call__ fp_submission fp_evidence) s2)
  ∧ ((∃ s1, new other (Some "") = inr s1) ↔ (∃ s2, new other None = inr s2))
  ∧ (∀ s1 s2, new other (Some "") = inr s1 → new other None = inr s2 →
       videos_ s1 = None
       ∧ outcome (__call__ fp_submission fp_evidence) s1 =
         outcome (__call__ fp_submission fp_evidence) s2)
  ∧ outcome (__call__ fp_submission (Some "")) self =
    outcome (__call__ fp_submission None) self.
Proof.
  split; [| split; [| split; [| split]]].
  - unfold new, __init__, bind, setattr, attr, when_truthy, _load_videos, lift.
    simpl. destruct other as [p|]; simpl; [| split; intros _; by eexists].
    destruct (negb (String.eqb p "")); simpl; [| split; intros _; by eexists].
    destruct (read_videos p); simpl;
      [split; by intros [? [=]] | split; intros _; by eexists].
  - intros s1 s2 Hnew1 Hnew2.
    apply new_attributes in Hnew1 as (Hs1 & Hv1 & Hshots1 & Hvideos1).
    apply new_attributes in Hnew2 as (Hs2 & Hv2 & Hshots2 & Hvideos2).
    simpl in Hshots1, Hshots2. split; [done |].
    apply call_engine_congruence.
    + by rewrite Hs1, Hs2.
    + rewrite Hs1. done.
    + intros _. rewrite Hv1, Hv2. split; [done |]. intros Htrue.
      rewrite Htrue in Hvideos1, Hvideos2.
      destruct Hvideos1 as (p & rows & -> & Hrv & ->).
      destruct Hvideos2 as (p' & rows' & [= <-] & Hrv' & ->).
      rewrite Hrv in Hrv'. by injection Hrv' as <-.
  - unfold new, __init__, bind, setattr, attr, when_truthy, _load_shots, lift.
    simpl. destruct other as [p|]; simpl; [| split; intros _; by eexists].
    destruct (negb (String.eqb p "")); simpl; [| split; intros _; by eexists].
    destruct (read_shots p); simpl;
      [split; by intros [? [=]] | split; intros _; by eexists].
  - intros s1 s2 Hnew1 Hnew2.
    apply new_attributes in Hnew1 as (Hs1 & Hv1 & Hshots1 & Hvideos1).
    apply new_attributes in Hnew2 as (Hs2 & Hv2 & Hshots2 & Hvideos2).
    simpl in Hvideos1, Hvideos2. split; [done |].
    apply call_engine_congruence.
    + by rewrite Hs1, Hs2.
    + rewrite Hs1. intros Htrue. rewrite Htrue in Hshots1, Hshots2.
      destruct Hshots1 as (p & rows & -> & Hrs & ->).
      destruct Hshots2 as (p' & rows' & [= <-] & Hrs' & ->).
      rewrite Hrs in Hrs'. by injection Hrs' as <-.
    + intros _. rewrite Hv1, Hv2. split; [done |]. done.
  - reflexivity.
Qed.

Lemma shot_list_read_as_set_of_triples_witness :
  let s1 := {| shots := Some "shots.lst";
               shots_ := Some {[ ("C1", "V1", "S1") ]};
               videos := None; videos_ := None |} in
  let s2 := {| shots := Some "shots_again.lst";
               shots_ := Some {[ ("C1", "V1", "S1") ]};
               videos := None; videos_ := None |} in
  truthy (Some "shots.lst") = true
  ∧ truthy (Some "shots_again.lst") = true
  ∧ @read_shots two_shot_lists "shots.lst" = inr demo_shots
  ∧ @read_shots two_shot_lists "shots_again.lst" = inr demo_shots_again
  ∧ @new two_shot_lists (Some "shots.lst") None = inr s1
  ∧ @new two_shot_lists (Some "shots_again.lst") None = inr s2
  ∧ outcome (@__call__ two_shot_lists elements_order "bad_shot.txt" None) s1 =
    outcome (@__call__ two_shot_lists elements_order "bad_shot.txt" None) s2.
Proof.
  intros s1 s2.
  assert (@new two_shot_lists (Some "shots.lst") None = inr s1) as Hnew1
    by (vm_compute; reflexivity).
  assert (@new two_shot_lists (Some "shots_again.lst") None = inr s2) as Hnew2
    by (vm_compute; reflexivity).
  assert (∀ c v s,
     (∃ r, r ∈ demo_shots ∧ shot_corpus_id r = c ∧ shot_video_id r = v
           ∧ shot_shot_id r = s) ↔
     (∃ r, r ∈ demo_shots_again ∧ shot_corpus_id r = c ∧ shot_video_id r = v
           ∧ shot_shot_id r = s)) as Hsame.
  { intros c v s. split.
    - intros (r & Hr & Hids). exists r. split; [| done].
      apply elem_of_cons. by right.
    - intros (r & Hr & Hids).
      apply elem_of_cons in Hr as [->|Hr]; [| by exists r].
      eexists. split; [apply elem_of_cons; by left | exact Hids]. }
  repeat (split; [first [reflexivity | assumption] |]).
  exact (proj2 (@shot_list_read_as_set_of_triples two_shot_lists elements_order
                  "shots.lst" "shots_again.lst" None demo_shots
                  demo_shots_again s1 s2 "bad_shot.txt" None
                  eq_refl eq_refl eq_refl eq_refl Hsame Hnew1 Hnew2)).
Defined.

(** ** Row order *)

Lemma valid_submission_same_rows self (sub1 sub2 : Submission) :
  (∀ r, r ∈ sub1 ↔ r ∈ sub2) →
  valid_submission self sub1 → valid_submission self sub2.
Proof.
  intros Hsame (Hnames & Hshots & Hconf). split; [| split].
  - intros r Hr. by apply Hnames, Hsame.
  - intros Htrue. destruct (Hshots Htrue) as (reference & Href & Hall).
    exists reference. split; [done |]. intros r Hr. by apply Hall, Hsame.
  - intros r Hr. by apply Hconf, Hsame.
Qed.

Lemma valid_evidence_reordered self (sub1 sub2 : Submission) (ev1 ev2 : Evidence) :
  (∀ r, r ∈ sub1 ↔ r ∈ sub2) → ev1 ≡ₚ ev2 →
  valid_evidence self sub1 ev1 → valid_evidence self sub2 ev2.
Proof.
  intros Hsame Hperm (Hvideos & Hts & Hnd & Hnames & Hmod).
  assert (∀ r, r ∈ ev2 → r ∈ ev1) as Hin.
  { intros r Hr. by rewrite Hperm. }
  split; [| split; [| split; [| split]]].
  - intros Htrue. destruct (Hvideos Htrue) as (reference & Href & Hall).
    exists reference. split; [done |]. intros r Hr. by apply Hall, Hin.
  - intros r Hr. by apply Hts, Hin.
  - by rewrite <- Hperm.
  - intros n. rewrite <- Hperm, Hnames, !list_elem_of_fmap.
    split; intros (r & -> & Hr); exists r; (split; [done | by apply Hsame]).
  - intros r Hr. by apply Hmod, Hin.
Qed.

(** X10.  Whether a call accepts does not depend on the order of the rows:
    two submissions with the same rows (in any order, repeated or not) and
    two evidence files with the same rows in another order are both accepted
    or both rejected. *)
Theorem acceptance_ignores_row_order `{Pandas} `{HashOrder}
    fp1 fp2 fp_evidence1 fp_evidence2 self sub1 sub2 ev1 ev2 :
  read_submission fp1 = inr sub1 →
  read_submission fp2 = inr sub2 →
  (∀ r, r ∈ sub1 ↔ r ∈ sub2) →
  loads_evidence fp_evidence1 (Some ev1) →
  loads_evidence fp_evidence2 (Some ev2) →
  ev1 ≡ₚ ev2 →
  outcome (__call__ fp1 fp_evidence1) self = inr PyTrue ↔
  outcome (__call__ fp2 fp_evidence2) self = inr PyTrue.
Proof.
  intros Hsub1 Hsub2 Hsame Hev1 Hev2 Hperm.
  assert (∀ fp fpe sub ev,
            read_submission fp = inr sub → loads_evidence fpe (Some ev) →
            outcome (__call__ fp fpe) self = inr PyTrue ↔
            valid_submission self sub ∧ valid_evidence self sub ev) as Hvalid.
  { intros fp fpe sub ev Hsub Hev.
    rewrite (call_blocks _ _ _ sub ev) by done.
    rewrite <- submission_block_valid, <- evidence_block_valid.
    destruct (first_failure_True_or_raises
                ((λ check, outcome check self)
                   <$> applicable_checks self sub None))
      as [->|[e ->]]; [tauto |].
    split; [done | by intros [[=] _]]. }
  rewrite (Hvalid fp1 fp_evidence1 sub1 ev1) by done.
  rewrite (Hvalid fp2 fp_evidence2 sub2 ev2) by done.
  split; intros [Hs He]; split.
  - by apply (valid_submission_same_rows self sub1 sub2).
  - by apply (valid_evidence_reordered self sub1 sub2 ev1 ev2).
  - apply (valid_submission_same_rows self sub2 sub1); [| done].
    intros r. by rewrite Hsame.
  - apply (valid_evidence_reordered self sub2 sub1 ev2 ev1); [| done | done].
    intros r. by rewrite Hsame.
Qed.

Lemma acceptance_ignores_row_order_witness :
  @read_submission reordered_files "submission.txt" = inr demo_submission
  ∧ @read_submission reordered_files "reversed.txt" = inr demo_submission_reversed
  ∧ (∀ r, r ∈ demo_submission ↔ r ∈ demo_submission_reversed)
  ∧ @loads_evidence reordered_files (Some "evidence.txt") (Some demo_evidence)
  ∧ @loads_evidence reordered_files (Some "reversed_evidence.txt")
      (Some demo_evidence_reversed)
  ∧ demo_evidence ≡ₚ demo_evidence_reversed
  ∧ (outcome (@__call__ reordered_files elements_order "submission.txt"
                (Some "evidence.txt")) demo_engine = inr PyTrue ↔
     outcome (@__call__ reordered_files elements_order "reversed.txt"
                (Some "reversed_evidence.txt")) demo_engine = inr PyTrue).
Proof.
  assert (∀ r, r ∈ demo_submission ↔ r ∈ demo_submission_reversed) as Hsame.
  { intros r. unfold demo_submission, demo_submission_reversed.
    rewrite !elem_of_cons. tauto. }
  assert (@loads_evidence reordered_files (Some "evidence.txt")
            (Some demo_evidence)) as Hev1
    by (exists "evidence.txt"; repeat split; reflexivity).
  assert (@loads_evidence reordered_files (Some "reversed_evidence.txt")
            (Some demo_evidence_reversed)) as Hev2
    by (exists "reversed_evidence.txt"; repeat split; reflexivity).
  assert (demo_evidence ≡ₚ demo_evidence_reversed) as Hperm
    by apply Permutation_swap.
  split; [reflexivity |]. split; [reflexivity |]. split; [exact Hsame |].
  split; [exact Hev1 |]. split; [exact Hev2 |]. split; [exact Hperm |].
  exact (@acceptance_ignores_row_order reordered_files elements_order
           "submission.txt" "reversed.txt" (Some "evidence.txt")
           (Some "reversed_evidence.txt") demo_engine demo_submission
           demo_submission_reversed demo_evidence demo_evidence_reversed
           eq_refl eq_refl Hsame Hev1 Hev2 Hperm).
Defined.

(** ** The order of sets *)











Example set_order_names_another_element :
  outcome (@__evidence_person_names elements_order demo_submission []) open_engine
    = inl (ValueError (MissingPersonName "alice"))
  ∧ outcome (@__evidence_person_names reverse_order demo_submission [])
      open_engine
    = inl (ValueError (MissingPersonName "bob")).
Proof. split; vm_compute; reflexivity. Qed.

(** ** Counting rows *)

(** X12.  Evidence that passes the cross-check has exactly one row per
    distinct person name of the submission. *)
Theorem accepted_evidence_one_row_per_name `{HashOrder} (self : Validation)
    (submission : Submission) (evidence : Evidence) :
  passes (__evidence_person_names submission evidence) self →
  length evidence =
  size (list_to_set (sub_person_name <$> submission) : gset string).
Proof.
  intros Hpass. apply evidence_person_names_passes in Hpass as [Hnd Hsame].
  assert ((list_to_set (sub_person_name <$> submission) : gset string) =
          list_to_set (ev_person_name <$> evidence)) as ->.
  { apply set_eq. intros n. by rewrite !elem_of_list_to_set, Hsame. }
  rewrite size_list_to_set by done. by rewrite length_fmap.
Qed.

Lemma accepted_evidence_one_row_per_name_witness :
  passes (__evidence_person_names
            (demo_submission ++ demo_submission_reversed)%list demo_evidence)
         open_engine
  ∧ length demo_evidence =
    size (list_to_set
            (sub_person_name <$> (demo_submission ++ demo_submission_reversed)%list)
          : gset string).
Proof.
  assert (passes (__evidence_person_names
                    (demo_submission ++ demo_submission_reversed)%list
                    demo_evidence) open_engine) as Hpass
    by (exists PyTrue; vm_compute; reflexivity).
  split; [exact Hpass |].
  exact (accepted_evidence_one_row_per_name open_engine
           (demo_submission ++ demo_submission_reversed)%list demo_evidence
           Hpass).
Defined.

(** * A person-name column with NaN cells *)

Lemma elem_of_unique_cells_from seen cells c :
  c ∈ unique_cells_from seen cells ↔ c ∈ cells ∧ c ∉ seen.
Proof.
  revert seen. induction cells as [|c0 cells IH]; intros seen; simpl.
  - split; [intros Hc | intros [Hc _]]; by apply elem_of_nil in Hc.
  - case_bool_decide as Hseen.
    + rewrite IH, !elem_of_cons. split.
      * intros [Hc Hn]. split; [by right | done].
      * intros [[->|Hc] Hn]; [done | by split].
    + rewrite elem_of_cons, IH, !elem_of_cons. split.
      * intros [->|[Hc Hn]]; [split; [by left | done] |].
        split; [by right |]. intros Hin. apply Hn. by right.
      * intros [[->|Hc] Hn]; [by left |].
        destruct (decide (c = c0)) as [->|Hne]; [by left | right].
        split; [done |]. by intros [?|?].
Qed.

Lemma elem_of_unique_cells cells c : c ∈ unique_cells cells ↔ c ∈ cells.
Proof.
  unfold unique_cells. rewrite elem_of_unique_cells_from.
  split; [by intros [? _] |]. intros Hc. split; [done |].
  intros Hin. by apply elem_of_nil in Hin.
Qed.

Lemma for_each_ext {A} (xs : list A) (body1 body2 : A → Py unit) self :
  (∀ x s, body1 x s = body2 x s) →
  for_each xs body1 self = for_each xs body2 self.
Proof.
  intros Hext. revert self. induction xs as [|x xs IH]; intros self; simpl;
    [done |].
  unfold bind. rewrite Hext. destruct (body2 x self) as [self' [e|[]]];
    [done | apply IH].
Qed.

Lemma submission_person_names_cells_cases `{HashOrder} (column : list Cell) self :
  ((∀ c, c ∈ column → ∃ text, c = Str text ∧ in_alphabet text) ∧
   __submission_person_names_cells column self = (self, inr PyTrue))
  ∨ (∃ text, Str text ∈ column ∧ ¬ in_alphabet text ∧
       __submission_person_names_cells column self =
         (self, inl (ValueError (InvalidPersonName text))))
  ∨ (NaN ∈ column ∧
     __submission_person_names_cells column self =
       (self, inl (TypeError "'float' object is not iterable"))).
Proof.
  unfold __submission_person_names_cells, bind.
  rewrite (for_each_ext _ _
             (λ c, if match c with
                      | NaN => true
                      | Str text =>
                          negb (bool_decide (chars text ⊆ ALLOWED_CHARACTERS))
                      end
                   then raise
                          match c with
                          | NaN => TypeError "'float' object is not iterable"
                          | Str text => ValueError (InvalidPersonName text)
                          end
                   else ret tt))
    by (intros [text|] s; [by destruct (negb _) | done]).
  rewrite for_each_guard.
  destruct (find _ _) as [c|] eqn:Hfind.
  - apply find_some in Hfind as [Hin Hbad].
    apply list_elem_of_In in Hin.
    rewrite elem_of_hash_iter, elem_of_list_to_set, elem_of_unique_cells in Hin.
    destruct c as [text|].
    + right. left. exists text.
      apply negb_true_iff, bool_decide_eq_false in Hbad.
      split; [done |]. split; [by rewrite <- chars_allowed | done].
    + right. right. by split.
  - left. split; [| done]. intros c Hc.
    pose proof (find_none _ _ Hfind c) as Hok. simpl in Hok.
    assert (In c (hash_iter
                    (list_to_set (unique_cells column) : gset Cell))) as Hin.
    { apply list_elem_of_In.
      by rewrite elem_of_hash_iter, elem_of_list_to_set, elem_of_unique_cells. }
    specialize (Hok Hin). destruct c as [text|]; [| done].
    exists text. split; [done |].
    apply chars_allowed. by rewrite negb_false_iff, bool_decide_eq_true in Hok.
Qed.

Lemma in_alphabet_decide name :
  bool_decide (chars name ⊆ ALLOWED_CHARACTERS) = true → in_alphabet name.
Proof. intros Hsub. apply bool_decide_eq_true in Hsub. by apply chars_allowed. Qed.

(** C2.  Where the code departs from the claim.  On a person-name column in
    which pandas has put a NaN cell (a field such as [null], [nan] or [NA])
    the alphabet check never passes; when every text cell of the column is
    in the alphabet it raises the [TypeError] of [set(person_name)], not an
    error naming a person name, and in general it raises that [TypeError] or
    "Invalid person name" for a text cell outside the alphabet, whichever
    cell the loop meets first. *)
Theorem nan_person_name_raises_type_error `{HashOrder} (column : list Cell)
    (self : Validation) :
  NaN ∈ column →
  fails (__submission_person_names_cells column) self
  ∧ ((∀ text, Str text ∈ column → in_alphabet text) →
       outcome (__submission_person_names_cells column) self =
         inl (TypeError "'float' object is not iterable"))
  ∧ (∀ e, outcome (__submission_person_names_cells column) self = inl e →
       e = TypeError "'float' object is not iterable"
       ∨ ∃ text, e = ValueError (InvalidPersonName text)
                 ∧ Str text ∈ column ∧ ¬ in_alphabet text).
Proof.
  intros Hnan. unfold fails, outcome.
  destruct (submission_person_names_cells_cases column self)
    as [[Hall ->]|[(text & Hin & Hbad & ->)|[_ ->]]]; simpl.
  - by destruct (Hall NaN Hnan) as (text & [=] & _).
  - split; [by eexists |]. split.
    + intros Hgood. destruct Hbad. by apply Hgood.
    + intros e [= <-]. right. by exists text.
  - split; [by eexists |]. split; [done |]. intros e [= <-]. by left.
Qed.

Lemma nan_person_name_raises_type_error_witness :
  NaN ∈ [Str "alice"; NaN; Str "bob"]
  ∧ outcome (__submission_person_names_cells [Str "alice"; NaN; Str "bob"])
      open_engine =
    inl (TypeError "'float' object is not iterable").
Proof.
  assert (NaN ∈ [Str "alice"; NaN; Str "bob"]) as Hnan.
  { apply elem_of_cons. right. apply elem_of_cons. left. reflexivity. }
  split; [exact Hnan |].
  destruct (nan_person_name_raises_type_error
              [Str "alice"; NaN; Str "bob"] open_engine Hnan)
    as (_ & Htype & _).
  apply Htype. intros text Hin.
  apply elem_of_cons in Hin as [Heq|Hin].
  { injection Heq as ->. apply in_alphabet_decide. vm_compute. reflexivity. }
  apply elem_of_cons in Hin as [Heq|Hin]; [discriminate Heq |].
  apply elem_of_cons in Hin as [Heq|Hin].
  { injection Heq as ->. apply in_alphabet_decide. vm_compute. reflexivity. }
  apply elem_of_nil in Hin. destruct Hin.
Defined.

(** The submission whose only line is [C1 V1 S1 null 0.5]: the name is
    written in the alphabet, pandas reads it as NaN, the check raises. *)
Example name_null_raises_type_error :
  in_alphabet "null"
  ∧ outcome (__submission_person_names_cells [NaN]) open_engine =
    inl (TypeError "'float' object is not iterable").
Proof.
  split; [apply in_alphabet_decide; vm_compute; reflexivity |].
  vm_compute. reflexivity.
Qed.

(** With [Jean-Paul] beside a NaN cell the order of the set decides which of
    the two errors is raised. *)
Example nan_or_invalid_name_by_set_order :
  outcome (@__submission_person_names_cells elements_order
             [Str "Jean-Paul"; NaN]) open_engine =
    inl (ValueError (InvalidPersonName "Jean-Paul"))
  ∧ outcome (@__submission_person_names_cells reverse_order
               [Str "Jean-Paul"; NaN]) open_engine =
    inl (TypeError "'float' object is not iterable").
Proof. split; vm_compute; reflexivity. Qed.


(** X13.  The alphabet check on the person-name column as pandas fills it
    returns [True] exactly when every cell holds text written in the
    alphabet.  Otherwise it raises "Invalid person name" for a text cell of
    the column with a character outside the alphabet, or the [TypeError] of
    a NaN cell of the column.  On a column without NaN cells it never raises
    the [TypeError], and passes exactly when the check on the typed rows
    does. *)
Theorem alphabet_check_on_cells `{HashOrder} (column : list Cell)
    (submission : Submission) (self : Validation) :
  (outcome (__submission_person_names_cells column) self = inr PyTrue ↔
     ∀ c, c ∈ column → ∃ text, c = Str text ∧ in_alphabet text)
  ∧ (∀ e, outcome (__submission_person_names_cells column) self = inl e →
       (e = TypeError "'float' object is not iterable" ∧ NaN ∈ column)
       ∨ ∃ text, e = ValueError (InvalidPersonName text)
                 ∧ Str text ∈ column ∧ ¬ in_alphabet text)
  ∧ (NaN ∉ column →
       ∀ what, outcome (__submission_person_names_cells column) self ≠
                 inl (TypeError what))
  ∧ (outcome (__submission_person_names_cells
                ((λ r, Str (sub_person_name r)) <$> submission)) self
       = inr PyTrue ↔
     outcome (__submission_person_names submission) self = inr PyTrue).
Proof.
  split; [| split; [| split]].
  - unfold outcome.
    destruct (submission_person_names_cells_cases column self)
      as [[Hall ->]|[(text & Hin & Hbad & ->)|[Hnan ->]]]; simpl.
    + done.
    + split; [done |]. intros Hall.
      destruct (Hall _ Hin) as (t & [= <-] & Hgood). by destruct Hbad.
    + split; [done |]. intros Hall. by destruct (Hall _ Hnan) as (t & [=] & _).
  - intros e. unfold outcome.
    destruct (submission_person_names_cells_cases column self)
      as [[Hall ->]|[(text & Hin & Hbad & ->)|[Hnan ->]]]; simpl; [done | |].
    + intros [= <-]. right. by exists text.
    + intros [= <-]. by left.
  - intros Hnone what. unfold outcome.
    destruct (submission_person_names_cells_cases column self)
      as [[Hall ->]|[(text & Hin & Hbad & ->)|[Hnan ->]]]; simpl; done.
  - assert (passes (__submission_person_names submission) self ↔
            outcome (__submission_person_names submission) self = inr PyTrue)
      as <-.
    { unfold passes, outcome.
      destruct (submission_person_names_cases submission self)
        as [[_ ->]|(name & _ & _ & ->)]; simpl.
      - split; [done | by eexists].
      - split; [by intros [? ?] | done]. }
    rewrite submission_person_names_passes. unfold outcome.
    destruct (submission_person_names_cells_cases
                ((λ r, Str (sub_person_name r)) <$> submission) self)
      as [[Hall ->]|[(text & Hin & Hbad & ->)|[Hnan ->]]]; simpl.
    + split; [| done]. intros _ r Hr.
      destruct (Hall (Str (sub_person_name r))) as (t & [= <-] & Hgood);
        [| done].
      apply list_elem_of_fmap. by exists r.
    + split; [done |]. intros Hall.
      apply list_elem_of_fmap in Hin as (r & [= ->] & Hr).
      destruct Hbad. by apply Hall.
    + apply list_elem_of_fmap in Hnan as (r & [=] & _).
Qed.

